(** * bumpalo_thin_slice: a shallow embedding of the thin-slice constructors

    The crate stores the length of a slice in a [usize] header placed
    immediately before the elements, in one allocation taken from a
    [bumpalo::Bump] arena.  A handle is a single [NonNull<Header>].

    This file embeds
    - the parts of [core::alloc::Layout] the crate uses ([Layout::new],
      [Layout::array], [Layout::extend]), over a pointer width [pw];
    - the arena and the memory as explicit state, with panics;
    - [data], [len], the raw primitive [new] and every constructor of
      [ThinSlice] (src/lib.rs) and [ThinSliceMut] (src/thin_slice_mut.rs),
      the [Default] impls of the three handle types, [as_slice],
      [PartialEq::eq] and [Hash::hash];
    - the [BumpaloThinSliceExt] methods of [Bump]. *)

From Stdlib Require Import ZArith String List Bool Lia.
Import ListNotations.
Open Scope Z_scope.

(** ** Platform integers *)

(** [usize::MAX] and [isize::MAX] for a pointer width of [pw] bits. *)
Definition usize_max (pw : Z) : Z := 2 ^ pw - 1.
Definition isize_max (pw : Z) : Z := 2 ^ (pw - 1) - 1.

(** ** core::alloc::Layout *)

Record Layout : Type := mkLayout { size : Z ; align : Z }.

(** [Layout::max_size_for_align]: [isize::MAX + 1 - align]. *)
Definition max_size_for_align (pw : Z) (align : Z) : Z :=
  isize_max pw + 1 - align.

(** [Layout::array::<T>(n)], [elem] being [Layout::new::<T>()]. *)
Definition array (pw : Z) (elem : Layout) (n : Z) : option Layout :=
  if negb (size elem =? 0) && (max_size_for_align pw (align elem) / size elem <? n)
  then None
  else Some (mkLayout (size elem * n) (align elem)).

(** [Layout::size_rounded_up_to_custom_align]:
    [(self.size + (align - 1)) & !(align - 1)] in [usize]. *)
Definition size_rounded_up_to_custom_align (pw : Z) (self : Layout) (a : Z) : Z :=
  let align_m1 := a - 1 in
  Z.land ((size self + align_m1) mod 2 ^ pw) (Z.lnot align_m1).

(** [Layout::extend]: the layout of [self] followed by [next], and the
    offset of [next] in it. *)
Definition extend (pw : Z) (self next : Layout) : option (Layout * Z) :=
  let new_align := Z.max (align self) (align next) in
  let offset := size_rounded_up_to_custom_align pw self (align next) in
  (* [offset.checked_add(next.size)] *)
  if usize_max pw <? offset + size next then None
  else let new_size := offset + size next in
  if max_size_for_align pw new_align <? new_size then None
  else Some (mkLayout new_size new_align, offset).

(** [type Header = usize;] and [Layout::new::<Header>()]. *)
Definition header_layout (pw : Z) : Layout := mkLayout (pw / 8) (pw / 8).

(** The layout computation at the start of [ThinSlice::new] (both
    [expect]s panic with the same message, so failure is [None]). *)
Definition new_layout (pw : Z) (t : Layout) (len : Z) : option Layout :=
  match array pw t len with
  | None => None
  | Some array_layout =>
      match extend pw (header_layout pw) array_layout with
      | None => None
      | Some (layout, _) => Some layout
      end
  end.

(** The offset computed by [data::<T>]:
    [header_layout.extend(Layout::new::<T>()).unwrap().1]. *)
Definition data_offset (pw : Z) (t : Layout) : option Z :=
  match extend pw (header_layout pw) t with
  | None => None
  | Some (_, offset) => Some offset
  end.

(** ** Addresses

    Each [static EMPTY: Header = 0;] is its own static item, hence its own
    address.  There are three: in [Default for ThinSlice] (src/lib.rs), in
    [Default for ThinSlice] (src/thin_slice.rs) and in
    [Default for ThinSliceMut] (src/thin_slice_mut.rs).  A static declared
    in a generic function is not duplicated per instantiation, so the
    address does not depend on [T].  Arena memory is addressed by the
    arena and the pointer value. *)
Inductive static_item : Type :=
| lib_ThinSlice_EMPTY
| thin_slice_ThinSlice_EMPTY
| thin_slice_mut_ThinSliceMut_EMPTY.

Inductive addr : Type :=
| Static (s : static_item)
| Arena (bump : nat) (ptr : Z).

Definition static_item_eqb (a b : static_item) : bool :=
  match a, b with
  | lib_ThinSlice_EMPTY, lib_ThinSlice_EMPTY => true
  | thin_slice_ThinSlice_EMPTY, thin_slice_ThinSlice_EMPTY => true
  | thin_slice_mut_ThinSliceMut_EMPTY, thin_slice_mut_ThinSliceMut_EMPTY => true
  | _, _ => false
  end.

Definition addr_eqb (a b : addr) : bool :=
  match a, b with
  | Static s, Static s' => static_item_eqb s s'
  | Arena b p, Arena b' p' => Nat.eqb b b' && (p =? p')
  | _, _ => false
  end.

(** ** Memory, arena and effects *)

Section Machine.

Variable pw : Z.
Variables T E : Type.

(** One arena allocation: the header slot and the element slots, the
    element slots indexed by their position after [data(header)]. *)
Record Alloc : Type := mkAlloc {
  a_header : option Z;
  a_cells : Z -> option T
}.

(** The machine state: the next free pointer of every arena, the memory,
    and [E], the environment captured by the caller's closures. *)
Record St : Type := mkSt {
  st_next : nat -> Z;
  st_mem : addr -> option Alloc;
  st_env : E
}.

Inductive Res (A : Type) : Type :=
| Ok (a : A) (s : St)
| Panic (msg : string).

Definition M (A : Type) : Type := St -> Res A.

Definition ret {A} (a : A) : M A := fun s => Ok A a s.

Definition bind {A B} (m : M A) (k : A -> M B) : M B :=
  fun s => match m s with
           | Ok _ a s' => k a s'
           | Panic _ msg => Panic B msg
           end.

Definition panic {A} (msg : string) : M A := fun _ => Panic A msg.

Definition set_env (s : St) (e : E) : St := mkSt (st_next s) (st_mem s) e.
Definition set_mem (s : St) (m : addr -> option Alloc) : St :=
  mkSt (st_next s) m (st_env s).

End Machine.

Arguments mkAlloc {T}.
Arguments a_header {T}.
Arguments a_cells {T}.
Arguments mkSt {T E}.
Arguments st_next {T E}.
Arguments st_mem {T E}.
Arguments st_env {T E}.
Arguments Ok {T E A}.
Arguments Panic {T E A}.
Arguments ret {T E A}.
Arguments bind {T E A B}.
Arguments panic {T E A}.
Arguments set_env {T E}.
Arguments set_mem {T E}.

Declare Scope thin_monad_scope.
Notation "x <- m ;; k" := (bind m (fun x => k))
  (at level 61, m at next level, right associativity) : thin_monad_scope.
Notation "m ;; k" := (bind m (fun _ => k))
  (at level 61, right associativity) : thin_monad_scope.
Open Scope thin_monad_scope.

(** ** The traits the constructors use *)

Class Clone (A : Type) := clone : A -> A.
Class Default (A : Type) := Default_default : A.
Class PartialEq (A : Type) := PartialEq_eq : A -> A -> bool.
(** A [Hasher] as far as slices use it directly: [write_length_prefix]. *)
Class Hasher (H : Type) := write_length_prefix : H -> Z -> H.
Class Hash (A : Type) := Hash_hash : forall (H : Type), Hasher H -> A -> H -> H.
(** An [ExactSizeIterator] with state [I]: [next] and [len]. *)
Class ExactSizeIterator (I A : Type) := {
  Iterator_next : I -> option (A * I);
  ExactSizeIterator_len : I -> Z
}.

(** [core::cmp::Ordering] and [Ordering::reverse]. *)
Inductive Ordering : Type := Less | Equal | Greater.

Definition Ordering_reverse (o : Ordering) : Ordering :=
  match o with
  | Less => Greater
  | Equal => Equal
  | Greater => Less
  end.

Class Ord (A : Type) := Ord_cmp : A -> A -> Ordering.
Class PartialOrd (A : Type) := PartialOrd_partial_cmp : A -> A -> option Ordering.

(** ** Memory operations, [data], [len] and the raw primitive *)

(** A [*mut T] into an element array: the allocation of the header, and
    the element index relative to [data(header)]. *)
Record ElemPtr : Type := mkElemPtr { ep_base : addr ; ep_index : Z }.

(** [ptr.add(i)] *)
Definition ptr_add (p : ElemPtr) (i : Z) : ElemPtr :=
  mkElemPtr (ep_base p) (ep_index p + i).

Section Raw.

Variable pw : Z.
Context {T E : Type}.
Local Abbreviation M := (M T E).
Local Abbreviation Mem := (addr -> option (Alloc T)).

Definition upd_mem (m : Mem) (a : addr) (v : option (Alloc T)) : Mem :=
  fun a' => if addr_eqb a a' then v else m a'.

(** [bump.alloc_layout(layout)]: the arena is a black box handing out a
    fresh region, aligned as asked; its memory is uninitialised. *)
Definition alloc_layout (bump : nat) (layout : Layout) : M addr :=
  fun s =>
    let next := st_next s bump in
    let ptr := (next + align layout - 1) / align layout * align layout in
    let header := Arena bump ptr in
    Ok header
       (mkSt (fun b => if Nat.eqb b bump then ptr + size layout else st_next s b)
             (upd_mem (st_mem s) header (Some (mkAlloc None (fun _ => None))))
             (st_env s)).

(** [ptr::write(header.as_ptr(), v)] *)
Definition write_header (header : addr) (v : Z) : M unit :=
  fun s =>
    match st_mem s header with
    | Some al => Ok tt (set_mem s (upd_mem (st_mem s) header
                                     (Some (mkAlloc (Some v) (a_cells al)))))
    | None => Panic "write outside an allocation"
    end.

Definition write_cell (m : Mem) (base : addr) (i : Z) (v : T) : Mem :=
  match m base with
  | Some al =>
      upd_mem m base
        (Some (mkAlloc (a_header al) (fun k => if k =? i then Some v else a_cells al k)))
  | None => m
  end.

(** [ptr::write(p, v)] *)
Definition write (p : ElemPtr) (v : T) : M unit :=
  fun s =>
    match st_mem s (ep_base p) with
    | Some _ => Ok tt (set_mem s (write_cell (st_mem s) (ep_base p) (ep_index p) v))
    | None => Panic "write outside an allocation"
    end.

Definition put_env (e : E) : M unit := fun s => Ok tt (set_env s e).

(** [unsafe fn data<T>(header) -> *mut T] *)
Definition data (t : Layout) (header : addr) : M ElemPtr :=
  match data_offset pw t with
  | None => panic "called `Result::unwrap()` on an `Err` value"
  | Some _ => ret (mkElemPtr header 0)
  end.

(** [unsafe fn len(header) -> usize]: [*header.as_ref()]; every [EMPTY]
    static holds [0]. *)
Definition len (m : Mem) (header : addr) : option Z :=
  match header with
  | Static _ => Some 0
  | Arena _ _ => match m header with
                 | Some al => a_header al
                 | None => None
                 end
  end.

(** Reading [n] initialised elements from index [i]. *)
Fixpoint read_cells (m : Mem) (header : addr) (i : Z) (n : nat) : option (list T) :=
  match n with
  | O => Some []
  | S n' =>
      match m header with
      | Some al =>
          match a_cells al i with
          | Some v => option_map (cons v) (read_cells m header (i + 1) n')
          | None => None
          end
      | None => None
      end
  end.

(** [slice::from_raw_parts(data(self.header), len(self.header))], the body
    of every [as_slice]; [None] when [data] panics or memory is not
    initialised. *)
Definition as_slice_raw (t : Layout) (m : Mem) (header : addr) : option (list T) :=
  match data_offset pw t with
  | None => None
  | Some _ =>
      match len m header with
      | None => None
      | Some n => read_cells m header 0 (Z.to_nat n)
      end
  end.

(** The body of [ThinSlice::new] and [ThinSliceMut::new]; [empty] is the
    header of the handle type's [default()]. *)
Definition new_raw (empty : addr) (bump : nat) (t : Layout) (len : Z)
    (init : ElemPtr -> M unit) : M addr :=
  if len =? 0 then ret empty else
  match array pw t len with
  | None => panic "array size is too large"
  | Some array_layout =>
      match extend pw (header_layout pw) array_layout with
      | None => panic "array size is too large"
      | Some (layout, _) =>
          header <- alloc_layout bump layout ;;
          write_header header len ;;
          dst <- data t header ;;
          init dst ;;
          ret header
      end
  end.

(** [for i in 0..n] from [i]. *)
Fixpoint for_range (body : Z -> M unit) (i : Z) (n : nat) : M unit :=
  match n with
  | O => ret tt
  | S n' => body i ;; for_range body (i + 1) n'
  end.

(** The initialiser of [from_fn]:
    [for i in 0..len { ptr::write(dst.add(i), f(i)); }] *)
Definition from_fn_init (len : Z) (f : Z -> M T) (dst : ElemPtr) : M unit :=
  for_range (fun i => v <- f i ;; write (ptr_add dst i) v) 0 (Z.to_nat len).

(** [for (i, val) in it.enumerate() { ptr::write(dst.add(i), val); }] *)
Fixpoint write_enumerate (dst : ElemPtr) (i : Z) (it : list T) : M unit :=
  match it with
  | [] => ret tt
  | val :: it' => write (ptr_add dst i) val ;; write_enumerate dst (i + 1) it'
  end.

(** The initialiser of [new_clone]: the iterator [src.iter().cloned()]. *)
Definition new_clone_init `{Clone T} (src : list T) (dst : ElemPtr) : M unit :=
  write_enumerate dst 0 (map clone src).

(** [ptr::copy_nonoverlapping(src, dst, count)], element by element. *)
Fixpoint copy_nonoverlapping (src : list T) (dst : ElemPtr) (count : nat) : M unit :=
  match count, src with
  | O, _ => ret tt
  | S c, x :: src' => write dst x ;; copy_nonoverlapping src' (ptr_add dst 1) c
  | S _, [] => panic "read outside the source slice"
  end.

(** The initialiser of [new_copy]. *)
Definition new_copy_init (src : list T) (dst : ElemPtr) : M unit :=
  copy_nonoverlapping src dst (length src).

(** The initialiser of [new_uninit]: it does nothing. *)
Definition new_uninit_init (_dst : ElemPtr) : M unit := ret tt.

(** [<[T] as PartialEq>::eq]: equal lengths and pairwise [==]. *)
Fixpoint all_eq `{PartialEq T} (xs ys : list T) : bool :=
  match xs, ys with
  | x :: xs', y :: ys' => PartialEq_eq x y && all_eq xs' ys'
  | _, _ => true
  end.

Definition slice_eq `{PartialEq T} (xs ys : list T) : bool :=
  Nat.eqb (length xs) (length ys) && all_eq xs ys.

(** [<[T] as Hash>::hash]: [state.write_length_prefix(self.len())], then
    [Hash::hash_slice], which hashes every element in order. *)
Definition slice_hash `{Hash T} {H : Type} `{Hasher H} (xs : list T) (state : H) : H :=
  fold_left (fun st x => Hash_hash H _ x st) xs
            (write_length_prefix state (Z.of_nat (length xs))).

(** [<usize as Ord>::cmp] *)
Definition usize_cmp (a b : nat) : Ordering :=
  if Nat.ltb a b then Less else if Nat.eqb a b then Equal else Greater.

(** [<[T] as Ord>::cmp] ([SliceOrd::compare]): over the common prefix,
    [match lhs[i].cmp(&rhs[i]) { Equal => (), non_eq => return non_eq }],
    then [left.len().cmp(&right.len())]; [lx] and [ly] are the two lengths. *)
Fixpoint slice_cmp_from `{Ord T} (xs ys : list T) (lx ly : nat) : Ordering :=
  match xs, ys with
  | x :: xs', y :: ys' =>
      match Ord_cmp x y with
      | Equal => slice_cmp_from xs' ys' lx ly
      | non_eq => non_eq
      end
  | _, _ => usize_cmp lx ly
  end.

Definition slice_cmp `{Ord T} (xs ys : list T) : Ordering :=
  slice_cmp_from xs ys (length xs) (length ys).

(** [<[T] as PartialOrd>::partial_cmp] ([SlicePartialOrd::partial_compare]):
    [match lhs[i].partial_cmp(&rhs[i]) { Some(Equal) => (), non_eq => return non_eq }],
    then [left.len().partial_cmp(&right.len())]. *)
Fixpoint slice_partial_cmp_from `{PartialOrd T} (xs ys : list T) (lx ly : nat)
    : option Ordering :=
  match xs, ys with
  | x :: xs', y :: ys' =>
      match PartialOrd_partial_cmp x y with
      | Some Equal => slice_partial_cmp_from xs' ys' lx ly
      | non_eq => non_eq
      end
  | _, _ => Some (usize_cmp lx ly)
  end.

Definition slice_partial_cmp `{PartialOrd T} (xs ys : list T) : option Ordering :=
  slice_partial_cmp_from xs ys (length xs) (length ys).

(** [slice::from_raw_parts_mut(data(header), len(header))[i] = v]: the body
    of [as_mut_slice] (and of [into_slice]) followed by an indexed store,
    which panics out of bounds; [i] is a [usize]. *)
Definition slice_store (t : Layout) (header : addr) (i : Z) (v : T) : M unit :=
  dst <- data t header ;;
  fun s => match len (st_mem s) header with
           | None => Panic "read outside an allocation"
           | Some n => if i <? n then write (ptr_add dst i) v s
                       else Panic "index out of bounds"
           end.

End Raw.

(** ** [ThinSlice] of src/lib.rs *)

Module ThinSlice.

(** [pub struct ThinSlice<'bump, T> { header: NonNull<Header>, _marker }] *)
Record ThinSlice : Type := mk { header : addr }.

(** [impl<T> Default for ThinSlice<'_, T>]: [NonNull::from(&EMPTY)]. *)
Definition default : ThinSlice := mk (Static lib_ThinSlice_EMPTY).

(** [ThinSlice<'_, MaybeUninit<T>>::assume_init(self)]: the same header,
    read as initialised elements. *)
Definition assume_init (self : ThinSlice) : ThinSlice := mk (header self).

Section Methods.

Variable pw : Z.
Context {T E : Type}.

(** [pub unsafe fn new(bump, len, init) -> Self] *)
Definition new (bump : nat) (t : Layout) (len : Z) (init : ElemPtr -> M T E unit)
    : M T E ThinSlice :=
  header <- new_raw pw (header default) bump t len init ;;
  ret (mk header).

(** [pub fn new_clone(bump, src: &[T]) -> Self] *)
Definition new_clone `{Clone T} (bump : nat) (t : Layout) (src : list T) : M T E ThinSlice :=
  new bump t (Z.of_nat (length src)) (new_clone_init src).

(** [pub fn new_copy(bump, src: &[T]) -> Self] *)
Definition new_copy (bump : nat) (t : Layout) (src : list T) : M T E ThinSlice :=
  new bump t (Z.of_nat (length src)) (new_copy_init src).

(** [pub fn from_fn(bump, len, f) -> Self] *)
Definition from_fn (bump : nat) (t : Layout) (len : Z) (f : Z -> M T E T) : M T E ThinSlice :=
  new bump t len (from_fn_init len f).

(** [ThinSlice<'_, MaybeUninit<T>>::new_uninit(bump, len)]; [T] stands for
    [MaybeUninit<T>] here. *)
Definition new_uninit (bump : nat) (t : Layout) (len : Z) : M T E ThinSlice :=
  new bump t len new_uninit_init.

(** [pub fn as_slice(&self) -> &[T]] *)
Definition as_slice (t : Layout) (m : addr -> option (Alloc T)) (self : ThinSlice)
    : option (list T) :=
  as_slice_raw pw t m (header self).

(** [impl PartialEq for ThinSlice]: [self.as_slice() == other.as_slice()]. *)
Definition eq `{PartialEq T} (t : Layout) (m : addr -> option (Alloc T))
    (self other : ThinSlice) : option bool :=
  match as_slice t m self, as_slice t m other with
  | Some a, Some b => Some (slice_eq a b)
  | _, _ => None
  end.

(** [impl Hash for ThinSlice]: [self.as_slice().hash(state)]. *)
Definition hash `{Hash T} {H : Type} `{Hasher H} (t : Layout)
    (m : addr -> option (Alloc T)) (self : ThinSlice) (state : H) : option H :=
  match as_slice t m self with
  | Some xs => Some (slice_hash xs state)
  | None => None
  end.

(** [impl PartialOrd for ThinSlice]: [self.as_slice().partial_cmp(other.as_slice())]. *)
Definition partial_cmp `{PartialOrd T} (t : Layout) (m : addr -> option (Alloc T))
    (self other : ThinSlice) : option (option Ordering) :=
  match as_slice t m self, as_slice t m other with
  | Some a, Some b => Some (slice_partial_cmp a b)
  | _, _ => None
  end.

(** [impl Ord for ThinSlice]: [self.as_slice().cmp(other.as_slice())]. *)
Definition cmp `{Ord T} (t : Layout) (m : addr -> option (Alloc T))
    (self other : ThinSlice) : option Ordering :=
  match as_slice t m self, as_slice t m other with
  | Some a, Some b => Some (slice_cmp a b)
  | _, _ => None
  end.

(** [self.as_mut_slice()[i] = v] *)
Definition as_mut_slice_store (t : Layout) (self : ThinSlice) (i : Z) (v : T) : M T E unit :=
  slice_store pw t (header self) i v.

End Methods.

End ThinSlice.

(** ** [ThinSlice] of src/thin_slice.rs *)

Module thin_slice.

Record ThinSlice : Type := mk { header : addr }.

(** [impl<T> Default for ThinSlice<'_, T>] of src/thin_slice.rs, with its
    own [static EMPTY]. *)
Definition default : ThinSlice := mk (Static thin_slice_ThinSlice_EMPTY).

Definition as_slice {T : Type} (pw : Z) (t : Layout) (m : addr -> option (Alloc T))
    (self : ThinSlice) : option (list T) :=
  as_slice_raw pw t m (header self).

End thin_slice.

(** ** [ThinSliceMut] of src/thin_slice_mut.rs *)

Module ThinSliceMut.

Record ThinSliceMut : Type := mk { header : addr }.

(** [impl<T> Default for ThinSliceMut<'_, T>], with its own [static EMPTY]. *)
Definition default : ThinSliceMut := mk (Static thin_slice_mut_ThinSliceMut_EMPTY).

Section Methods.

Variable pw : Z.
Context {T E : Type}.

Definition new (bump : nat) (t : Layout) (len : Z) (init : ElemPtr -> M T E unit)
    : M T E ThinSliceMut :=
  header <- new_raw pw (header default) bump t len init ;;
  ret (mk header).

Definition new_clone `{Clone T} (bump : nat) (t : Layout) (src : list T)
    : M T E ThinSliceMut :=
  new bump t (Z.of_nat (length src)) (new_clone_init src).

Definition new_copy (bump : nat) (t : Layout) (src : list T) : M T E ThinSliceMut :=
  new bump t (Z.of_nat (length src)) (new_copy_init src).

Definition from_fn (bump : nat) (t : Layout) (len : Z) (f : Z -> M T E T)
    : M T E ThinSliceMut :=
  new bump t len (from_fn_init len f).

(** [as_thin_slice] and [into_thin_slice] keep the header pointer. *)
Definition as_thin_slice (self : ThinSliceMut) : thin_slice.ThinSlice :=
  thin_slice.mk (header self).

Definition into_thin_slice (self : ThinSliceMut) : thin_slice.ThinSlice :=
  thin_slice.mk (header self).

Definition as_slice (t : Layout) (m : addr -> option (Alloc T)) (self : ThinSliceMut)
    : option (list T) :=
  as_slice_raw pw t m (header self).

(** [self.as_mut_slice()[i] = v] *)
Definition as_mut_slice_store (t : Layout) (self : ThinSliceMut) (i : Z) (v : T)
    : M T E unit :=
  slice_store pw t (header self) i v.

End Methods.

End ThinSliceMut.

(** ** [impl BumpaloThinSliceExt for Bump] (src/lib.rs) *)

Section BumpExt.

Variable pw : Z.
Context {T E : Type}.

Definition alloc_thin_slice_clone `{Clone T} (bump : nat) (t : Layout) (src : list T)
    : M T E ThinSlice.ThinSlice :=
  ThinSlice.new_clone pw bump t src.

Definition alloc_thin_slice_copy (bump : nat) (t : Layout) (src : list T)
    : M T E ThinSlice.ThinSlice :=
  ThinSlice.new_copy pw bump t src.

Definition alloc_thin_slice_fill_clone `{Clone T} (bump : nat) (t : Layout) (len : Z)
    (value : T) : M T E ThinSlice.ThinSlice :=
  ThinSlice.from_fn pw bump t len (fun _ => ret (clone value)).

Definition alloc_thin_slice_fill_copy (bump : nat) (t : Layout) (len : Z) (value : T)
    : M T E ThinSlice.ThinSlice :=
  ThinSlice.from_fn pw bump t len (fun _ => ret value).

Definition alloc_thin_slice_fill_default `{Default T} (bump : nat) (t : Layout) (len : Z)
    : M T E ThinSlice.ThinSlice :=
  ThinSlice.from_fn pw bump t len (fun _ => ret Default_default).

Definition alloc_thin_slice_fill_with (bump : nat) (t : Layout) (len : Z)
    (f : Z -> M T E T) : M T E ThinSlice.ThinSlice :=
  ThinSlice.from_fn pw bump t len f.

End BumpExt.

(** [iter.next().expect("Iterator supplied to few elements")]; the
    iterator [I] is the environment of the closure. *)
Definition next_expect {T I : Type} `{ExactSizeIterator I T} : M T I T :=
  fun s =>
    match Iterator_next (st_env s) with
    | Some (x, it) => Ok x (set_env s it)
    | None => Panic "Iterator supplied to few elements"
    end.

(** [alloc_thin_slice_fill_iter]: [let mut iter = iter.into_iter();] then
    [ThinSlice::from_fn(self, iter.len(), |_| next_expect)]. *)
Definition alloc_thin_slice_fill_iter (pw : Z) {T I : Type} `{ExactSizeIterator I T}
    (bump : nat) (t : Layout) (iter : I) : M T I ThinSlice.ThinSlice :=
  put_env iter ;;
  ThinSlice.from_fn pw bump t (ExactSizeIterator_len iter) (fun _ => next_expect).

(** ** Concrete instances *)

(** [core::ops::Range<usize>] as an [ExactSizeIterator]. *)
Record Range : Type := mkRange { start : Z ; end_ : Z }.

#[export] Instance Range_iter : ExactSizeIterator Range Z := {
  Iterator_next := fun r => if start r <? end_ r
                            then Some (start r, mkRange (start r + 1) (end_ r))
                            else None;
  ExactSizeIterator_len := fun r => Z.max 0 (end_ r - start r)
}.

(** [Layout::new::<u64>()], [Layout::new::<i32>()] and the like. *)
Definition layout_u64 : Layout := mkLayout 8 8.
Definition layout_i32 : Layout := mkLayout 4 4.

(** [Layout::new::<[u8; 1073741822]>()]: an element of [2^30 - 2] bytes. *)
Definition layout_u8_array : Layout := mkLayout 1073741822 1.

(** A fresh machine: no arena has allocated yet. *)
Definition init_st {T E : Type} (e : E) : St T E :=
  mkSt (fun _ => 4096) (fun _ => None) e.

Definition result_slice {T E A : Type} (pw : Z) (t : Layout) (hdr : A -> addr)
    (r : Res T E A) : option (list T) :=
  match r with
  | Ok h s => as_slice_raw pw t (st_mem s) (hdr h)
  | Panic _ => None
  end.

(** ** Vocabulary of the properties *)

(** Pointer widths of the targets considered. *)
Definition valid_pw (pw : Z) : Prop := pw = 32 \/ pw = 64.

(** The layout of a Rust type: non-negative size at most [isize::MAX], a
    power-of-two alignment at most [2^29] (rustc's limit) dividing the
    size. *)
Definition ty_wfb (pw : Z) (t : Layout) : bool :=
  (0 <=? size t) && (size t <=? isize_max pw) && (1 <=? align t) && (align t <=? 536870912)
  && (Z.land (align t) (align t - 1) =? 0) && (size t mod align t =? 0).

(** The byte size of the header, padded to the element alignment, plus the
    element array. *)
Definition total_size (pw : Z) (t : Layout) (len : Z) : Z :=
  size_rounded_up_to_custom_align pw (header_layout pw) (align t) + size t * len.

(** [len] elements of [t] fit behind a header: [data] does not panic, and
    for a non-zero [len] the layout computation of [new] succeeds. *)
Definition layout_fits (pw : Z) (t : Layout) (len : Z) : bool :=
  match data_offset pw t with
  | None => false
  | Some _ => (len =? 0) || match new_layout pw t len with
                            | Some _ => true
                            | None => false
                            end
  end.

(** [i, i+1, ..., i+n-1] *)
Fixpoint zseq (i : Z) (n : nat) : list Z :=
  match n with
  | O => []
  | S n' => i :: zseq (i + 1) n'
  end.

(** A closure of [from_fn] whose effect on the environment depends only on
    the environment: [step] gives the element and the new environment, or
    [None] for a panic with [msg]. *)
Definition env_step {T E : Type} (step : Z -> E -> option (T * E)) (msg : string) (j : Z)
    : M T E T :=
  fun s => match step j (st_env s) with
           | Some (v, e') => Ok v (set_env s e')
           | None => Panic msg
           end.

(** Running such a closure at [i, ..., i+n-1] in order. *)
Fixpoint run_steps {T E : Type} (step : Z -> E -> option (T * E)) (i : Z) (n : nat) (e : E)
    : option (list T * E) :=
  match n with
  | O => Some ([], e)
  | S n' =>
      match step i e with
      | Some (v, e') =>
          match run_steps step (i + 1) n' e' with
          | Some (vs, e'') => Some (v :: vs, e'')
          | None => None
          end
      | None => None
      end
  end.

(** The first [n] items of an iterator and the iterator after them, or
    [None] if it yields fewer than [n]. *)
Fixpoint iter_take {I T : Type} `{ExactSizeIterator I T} (n : nat) (it : I)
    : option (list T * I) :=
  match n with
  | O => Some ([], it)
  | S n' =>
      match Iterator_next it with
      | Some (x, it') =>
          match iter_take n' it' with
          | Some (xs, it'') => Some (x :: xs, it'')
          | None => None
          end
      | None => None
      end
  end.

(** A generator [i => g(i)] that records, in the environment, every index
    it is called with. *)
Definition logged {T : Type} (g : Z -> T) (i : Z) : M T (list Z) T :=
  fun s => Ok (g i) (set_env s (st_env s ++ [i])).

(** An iterator over [0, 1, 2, ...] that never ends but reports [n]. *)
Record Counter : Type := mkCounter { counter_pos : Z ; counter_reported : Z }.

#[export] Instance Counter_iter : ExactSizeIterator Counter Z := {
  Iterator_next := fun c => Some (counter_pos c, mkCounter (counter_pos c + 1) (counter_reported c));
  ExactSizeIterator_len := fun c => counter_reported c
}.

(** A range iterator whose [len] reports [rep_len] whatever it yields: an
    [ExactSizeIterator] implementation that breaks the trait's contract. *)
Record Reported : Type := mkReported { rep_inner : Range ; rep_len : Z }.

#[export] Instance Reported_iter : ExactSizeIterator Reported Z := {
  Iterator_next := fun r => match Iterator_next (rep_inner r) with
                            | Some (x, r') => Some (x, mkReported r' (rep_len r))
                            | None => None
                            end;
  ExactSizeIterator_len := fun r => rep_len r
}.

#[export] Instance Z_Clone : Clone Z := fun x => x.
#[export] Instance unit_Clone : Clone unit := fun x => x.
#[export] Instance Z_Default : Default Z := 0.
#[export] Instance Z_PartialEq : PartialEq Z := Z.eqb.
#[export] Instance Z_Hasher : Hasher Z := fun st n => st * 31 + n.
#[export] Instance Z_Hash : Hash Z := fun H hh x st => write_length_prefix st x.

(** [impl Ord for i64] and its [PartialOrd]. *)
#[export] Instance Z_Ord : Ord Z := fun x y =>
  match Z.compare x y with Lt => Less | Eq => Equal | Gt => Greater end.
#[export] Instance Z_PartialOrd : PartialOrd Z := fun x y => Some (Ord_cmp x y).

(** [x] rounded up to a multiple of [a]. *)
Definition round_up (x a : Z) : Z := (x + a - 1) / a * a.

(** The arenas hand out fresh memory: every allocation of arena [b] lies
    below its next pointer. *)
Definition arena_inv {T E : Type} (s : St T E) : Prop :=
  forall b p, st_mem s (Arena b p) <> None -> p < st_next s b.

(** Every view readable in [s] reads the same in [s']. *)
Definition keeps_views {T E : Type} (pw : Z) (s s' : St T E) : Prop :=
  forall t a xs, as_slice_raw pw t (st_mem s) a = Some xs -> as_slice_raw pw t (st_mem s') a = Some xs.

(** [xs] with its [k]-th element replaced by [v] ([xs] if out of range). *)
Fixpoint replace_nth {A : Type} (xs : list A) (k : nat) (v : A) : list A :=
  match xs, k with
  | [], _ => []
  | _ :: xs', O => v :: xs'
  | x :: xs', S k' => x :: replace_nth xs' k' v
  end.

(** A caller storing [vs] at indices [i, i+1, ...]:
    [for (k, v) in vs.enumerate() { slice.as_mut_slice()[i + k] = v }]. *)
Fixpoint store_all {T E : Type} (pw : Z) (t : Layout) (h : ThinSlice.ThinSlice) (i : Z)
    (vs : list T) : M T E unit :=
  match vs with
  | [] => ret tt
  | v :: vs' => ThinSlice.as_mut_slice_store pw t h i v ;; store_all pw t h (i + 1) vs'
  end.

(** The memory after writing [vs] at indices [i, i+1, ...] of [base]. *)
Fixpoint write_cells {T : Type} (m : addr -> option (Alloc T)) (base : addr) (i : Z)
    (vs : list T) : addr -> option (Alloc T) :=
  match vs with
  | [] => m
  | v :: vs' => write_cells (write_cell m base i v) base (i + 1) vs'
  end.

(** The next pointer of an arena after [alloc_layout]. *)
Definition alloc_ptr {T E : Type} (s : St T E) (bump : nat) (layout : Layout) : Z :=
  (st_next s bump + align layout - 1) / align layout * align layout.

(** The state [new] hands to [init]: the region allocated, the header
    written, the elements not yet. *)
Definition state_after_header {T E : Type} (s : St T E) (bump : nat) (layout : Layout)
    (len : Z) : St T E :=
  let ptr := alloc_ptr s bump layout in
  let header := Arena bump ptr in
  let m1 := upd_mem (st_mem s) header (Some (mkAlloc None (fun _ => None))) in
  mkSt (fun b => if Nat.eqb b bump then ptr + size layout else st_next s b)
       (upd_mem m1 header (Some (mkAlloc (Some len) (fun _ => None))))
       (st_env s).

(** ** Basic facts *)

Lemma static_item_eqb_refl (s : static_item) : static_item_eqb s s = true.
Proof. destruct s; reflexivity. Qed.

Lemma addr_eqb_refl (a : addr) : addr_eqb a a = true.
Proof.
  destruct a as [s | b p]; simpl.
  - apply static_item_eqb_refl.
  - rewrite Nat.eqb_refl, Z.eqb_refl. reflexivity.
Qed.

Lemma upd_mem_same {T : Type} (m : addr -> option (Alloc T)) a v : upd_mem m a v a = v.
Proof. unfold upd_mem. rewrite addr_eqb_refl. reflexivity. Qed.

Lemma Z_land_le_l (a b : Z) : 0 <= a -> Z.land a b <= a.
Proof.
  intros Ha.
  pose proof (Z.lor_ldiff_and a b) as Hor.
  assert (Hdis : Z.land (Z.ldiff a b) (Z.land a b) = 0).
  { apply Z.bits_inj'. intros n Hn.
    rewrite Z.land_spec, Z.ldiff_spec, Z.land_spec, Z.bits_0.
    destruct (Z.testbit a n), (Z.testbit b n); reflexivity. }
  rewrite <- Z.lxor_lor in Hor by exact Hdis.
  rewrite <- Z.add_nocarry_lxor in Hor by exact Hdis.
  assert (0 <= Z.ldiff a b) by (apply Z.ldiff_nonneg; left; exact Ha).
  lia.
Qed.

(** ** Memory facts *)

Section MemoryFacts.

Context {T E : Type}.

Lemma write_cell_at (m : addr -> option (Alloc T)) base i v al :
  m base = Some al ->
  write_cell m base i v base =
    Some (mkAlloc (a_header al) (fun k => if k =? i then Some v else a_cells al k)).
Proof. intros Hm. unfold write_cell. rewrite Hm. apply upd_mem_same. Qed.

Lemma write_cells_spec (vs : list T) : forall m base i al,
  m base = Some al ->
  exists al', write_cells m base i vs base = Some al' /\ a_header al' = a_header al /\
    forall k, a_cells al' k =
      if (i <=? k) && (k <? i + Z.of_nat (length vs))
      then nth_error vs (Z.to_nat (k - i)) else a_cells al k.
Proof.
  induction vs as [| v vs IH]; intros m base i al Hm; simpl.
  - exists al. split; [exact Hm|]. split; [reflexivity|].
    intros k. destruct (Z.leb_spec i k), (Z.ltb_spec k (i + 0)); simpl; try reflexivity; lia.
  - destruct (IH (write_cell m base i v) base (i + 1) _ (write_cell_at m base i v al Hm))
      as (al' & Hal' & Hhd & Hcells).
    exists al'. split; [exact Hal'|]. split; [exact Hhd|].
    intros k. rewrite Hcells. simpl.
    destruct (Z.eqb_spec k i) as [->|Hki].
    + destruct (Z.leb_spec (i + 1) i); [lia|]. simpl.
      destruct (Z.leb_spec i i); [|lia].
      destruct (Z.ltb_spec i (i + Z.pos (Pos.of_succ_nat (length vs)))); [|lia].
      rewrite Z.sub_diag. reflexivity.
    + destruct (Z.leb_spec (i + 1) k), (Z.ltb_spec k (i + 1 + Z.of_nat (length vs)));
        destruct (Z.leb_spec i k), (Z.ltb_spec k (i + Z.pos (Pos.of_succ_nat (length vs))));
        simpl; try lia; try reflexivity.
      * replace (Z.to_nat (k - i)) with (S (Z.to_nat (k - (i + 1)))) by lia.
        reflexivity.
Qed.

Lemma read_cells_all (n : nat) : forall m base i al (vs : list T),
  m base = Some al -> length vs = n ->
  (forall j, (j < n)%nat -> a_cells al (i + Z.of_nat j) = nth_error vs j) ->
  read_cells m base i n = Some vs.
Proof.
  induction n as [| n IH]; intros m base i al vs Hm Hlen Hcells.
  - destruct vs; [reflexivity | discriminate].
  - destruct vs as [| v vs]; [discriminate|]. simpl in Hlen.
    simpl. rewrite Hm.
    pose proof (Hcells 0%nat ltac:(lia)) as H0. rewrite Z.add_0_r in H0. rewrite H0.
    simpl. rewrite (IH m base (i + 1) al vs Hm ltac:(lia)); [reflexivity|].
    intros j Hj. pose proof (Hcells (S j) ltac:(lia)) as H1. simpl in H1.
    rewrite <- H1. f_equal. lia.
Qed.

(** Reading back a header written with [length vs] and cells [vs]. *)
Lemma as_slice_raw_cells pw t (m : addr -> option (Alloc T)) bump p al (vs : list T) :
  data_offset pw t <> None ->
  m (Arena bump p) = Some al ->
  a_header al = Some (Z.of_nat (length vs)) ->
  (forall j, (j < length vs)%nat -> a_cells al (Z.of_nat j) = nth_error vs j) ->
  as_slice_raw pw t m (Arena bump p) = Some vs.
Proof.
  intros Hd Hm Hh Hc. unfold as_slice_raw.
  destruct (data_offset pw t); [|congruence].
  simpl. rewrite Hm, Hh, Nat2Z.id.
  apply (read_cells_all _ m _ 0 al); auto.
Qed.

Lemma write_cells_view pw t (m : addr -> option (Alloc T)) bump p (vs : list T) cells :
  data_offset pw t <> None ->
  m (Arena bump p) = Some (mkAlloc (Some (Z.of_nat (length vs))) cells) ->
  as_slice_raw pw t (write_cells m (Arena bump p) 0 vs) (Arena bump p) = Some vs.
Proof.
  intros Hd Hm.
  destruct (write_cells_spec vs m (Arena bump p) 0 _ Hm) as (al' & Hal' & Hhd & Hc).
  apply (as_slice_raw_cells pw t _ bump p al'); auto.
  intros j Hj. rewrite Hc.
  destruct (Z.leb_spec 0 (Z.of_nat j)), (Z.ltb_spec (Z.of_nat j) (0 + Z.of_nat (length vs)));
    simpl; try lia.
  rewrite Z.sub_0_r, Nat2Z.id. reflexivity.
Qed.

Lemma write_cells_some (vs : list T) : forall m base i,
  m base <> None -> write_cells m base i vs base <> None.
Proof.
  intros m base i Hm.
  destruct (m base) as [al|] eqn:E'; [|congruence].
  destruct (write_cells_spec vs m base i al E') as (al' & -> & _). discriminate.
Qed.

Lemma write_enumerate_ok (dst : ElemPtr) (vs : list T) : forall i (s : St T E),
  st_mem s (ep_base dst) <> None ->
  write_enumerate dst i vs s =
    Ok tt (set_mem s (write_cells (st_mem s) (ep_base dst) (ep_index dst + i) vs)).
Proof.
  induction vs as [| v vs IH]; intros i s Hs; simpl.
  - destruct s; reflexivity.
  - unfold bind, write. simpl.
    destruct (st_mem s (ep_base dst)) as [al|] eqn:Hm; [|congruence].
    rewrite IH.
    + simpl. rewrite Z.add_assoc. reflexivity.
    + simpl. unfold write_cell. rewrite Hm, upd_mem_same. discriminate.
Qed.

Lemma copy_nonoverlapping_enumerate (src : list T) : forall b i,
  copy_nonoverlapping src (mkElemPtr b i) (length src) =
  write_enumerate (E := E) (mkElemPtr b 0) i src.
Proof.
  induction src as [| x src IH]; intros b i; simpl; [reflexivity|].
  unfold ptr_add at 1. simpl. rewrite IH. reflexivity.
Qed.

Lemma for_range_steps (step : Z -> E -> option (T * E)) msg (f : Z -> M T E T) dst
    (Hf : forall j s, f j s = env_step step msg j s) :
  forall n i (s : St T E), st_mem s (ep_base dst) <> None ->
  for_range (fun j => v <- f j ;; write (ptr_add dst j) v) i n s =
  match run_steps step i n (st_env s) with
  | Some (vs, e') =>
      Ok tt (mkSt (st_next s) (write_cells (st_mem s) (ep_base dst) (ep_index dst + i) vs) e')
  | None => Panic msg
  end.
Proof.
  induction n as [| n IH]; intros i s Hs; simpl.
  - destruct s; reflexivity.
  - unfold bind at 1. unfold bind at 1. rewrite Hf. unfold env_step.
    destruct (step i (st_env s)) as [[v e']|]; [|reflexivity].
    unfold write. simpl.
    destruct (st_mem s (ep_base dst)) as [al|] eqn:Hm; [|congruence].
    rewrite IH.
    + simpl. destruct (run_steps step (i + 1) n e') as [[vs e'']|]; [|reflexivity].
      simpl. rewrite Z.add_assoc. reflexivity.
    + simpl. unfold write_cell. rewrite Hm, upd_mem_same. discriminate.
Qed.

End MemoryFacts.

(** ** The raw primitive *)

Lemma layout_fits_data pw t len :
  layout_fits pw t len = true -> data_offset pw t <> None.
Proof. unfold layout_fits. destruct (data_offset pw t); congruence. Qed.

Lemma layout_fits_nonzero pw t len :
  layout_fits pw t len = true -> len <> 0 ->
  exists arr layout off, array pw t len = Some arr /\
    extend pw (header_layout pw) arr = Some (layout, off).
Proof.
  unfold layout_fits, new_layout. intros Hf Hlen.
  destruct (data_offset pw t); [|discriminate].
  rewrite (proj2 (Z.eqb_neq _ _) Hlen) in Hf. simpl in Hf.
  destruct (array pw t len) as [arr|]; [|discriminate].
  destruct (extend pw (header_layout pw) arr) as [[layout off]|] eqn:He; [|discriminate].
  eauto.
Qed.

Lemma state_after_header_mem {T E : Type} (s : St T E) bump layout len :
  st_mem (state_after_header s bump layout len) (Arena bump (alloc_ptr s bump layout)) =
  Some (mkAlloc (Some len) (fun _ => None)).
Proof. unfold state_after_header. simpl. apply upd_mem_same. Qed.

Lemma new_raw_run pw {T E : Type} empty bump t len (init : ElemPtr -> M T E unit)
    (s : St T E) arr layout off :
  len <> 0 -> array pw t len = Some arr ->
  extend pw (header_layout pw) arr = Some (layout, off) ->
  data_offset pw t <> None ->
  new_raw pw empty bump t len init s =
    match init (mkElemPtr (Arena bump (alloc_ptr s bump layout)) 0)
               (state_after_header s bump layout len) with
    | Ok _ s' => Ok (Arena bump (alloc_ptr s bump layout)) s'
    | Panic msg => Panic msg
    end.
Proof.
  intros Hlen Harr Hext Hd. unfold new_raw.
  rewrite (proj2 (Z.eqb_neq _ _) Hlen), Harr, Hext.
  unfold data. destruct (data_offset pw t); [|congruence].
  unfold bind, ret, alloc_layout, write_header. simpl. rewrite upd_mem_same.
  unfold state_after_header, alloc_ptr, set_mem. simpl.
  destruct (init _ _); reflexivity.
Qed.

Lemma as_slice_raw_static {T : Type} pw t (m : addr -> option (Alloc T)) si :
  data_offset pw t <> None -> as_slice_raw pw t m (Static si) = Some [].
Proof. intros Hd. unfold as_slice_raw. destruct (data_offset pw t); [reflexivity|congruence]. Qed.

(** [new] with an initialiser writing [vs] returns a handle viewing [vs]. *)
Lemma new_raw_writes pw {T E : Type} si bump t (vs : list T)
    (init : ElemPtr -> M T E unit) (s : St T E) :
  layout_fits pw t (Z.of_nat (length vs)) = true ->
  (forall dst (s0 : St T E), st_mem s0 (ep_base dst) <> None ->
     init dst s0 = Ok tt (set_mem s0 (write_cells (st_mem s0) (ep_base dst) (ep_index dst) vs))) ->
  exists hdr s', new_raw pw (Static si) bump t (Z.of_nat (length vs)) init s = Ok hdr s' /\
    as_slice_raw pw t (st_mem s') hdr = Some vs.
Proof.
  intros Hfit Hinit. pose proof (layout_fits_data _ _ _ Hfit) as Hd.
  destruct vs as [| v vs'] eqn:Hvs.
  - exists (Static si), s. split; [reflexivity|]. apply as_slice_raw_static; exact Hd.
  - rewrite <- Hvs in *.
    assert (Hn : Z.of_nat (length vs) <> 0) by (subst vs; simpl; lia).
    destruct (layout_fits_nonzero _ _ _ Hfit Hn) as (arr & layout & off & Harr & Hext).
    rewrite (new_raw_run pw (Static si) bump t _ init s arr layout off Hn Harr Hext Hd).
    rewrite Hinit by (cbn [ep_base]; rewrite state_after_header_mem; discriminate).
    eexists _, _. split; [reflexivity|]. cbn [ep_base ep_index st_mem set_mem].
    apply (write_cells_view _ _ _ _ _ _ (fun _ => None)); [exact Hd|].
    apply state_after_header_mem.
Qed.

Lemma run_steps_length {T E : Type} (step : Z -> E -> option (T * E)) n :
  forall i e vs e', run_steps step i n e = Some (vs, e') -> length vs = n.
Proof.
  induction n as [| n IH]; intros i e vs e' H; simpl in H.
  - injection H as <- _. reflexivity.
  - destruct (step i e) as [[v e1]|]; [|discriminate].
    destruct (run_steps step (i + 1) n e1) as [[vs1 e2]|] eqn:Hr; [|discriminate].
    injection H as <- _. simpl. f_equal. exact (IH _ _ _ _ Hr).
Qed.

(** [from_fn] with a closure acting on the environment. *)
Lemma new_raw_steps pw {T E : Type} si bump t len (step : Z -> E -> option (T * E)) msg
    (f : Z -> M T E T) (s : St T E) vs e' :
  (forall j s0, f j s0 = env_step step msg j s0) ->
  0 <= len -> layout_fits pw t len = true ->
  run_steps step 0 (Z.to_nat len) (st_env s) = Some (vs, e') ->
  exists hdr s', new_raw pw (Static si) bump t len (from_fn_init len f) s = Ok hdr s' /\
    as_slice_raw pw t (st_mem s') hdr = Some vs /\ st_env s' = e'.
Proof.
  intros Hf Hlen Hfit Hrun. pose proof (layout_fits_data _ _ _ Hfit) as Hd.
  pose proof (run_steps_length _ _ _ _ _ _ Hrun) as Hl.
  destruct (Z.eqb_spec len 0) as [->|Hn].
  - simpl in Hrun. injection Hrun as <- <-.
    exists (Static si), s. split; [reflexivity|]. split; [|reflexivity].
    apply as_slice_raw_static; exact Hd.
  - destruct (layout_fits_nonzero _ _ _ Hfit Hn) as (arr & layout & off & Harr & Hext).
    rewrite (new_raw_run pw (Static si) bump t _ _ s arr layout off Hn Harr Hext Hd).
    unfold from_fn_init.
    rewrite (for_range_steps step msg f _ Hf)
      by (cbn [ep_base]; rewrite state_after_header_mem; discriminate). change (st_env (state_after_header s bump layout len)) with (st_env s). rewrite Hrun.
    eexists _, _. split; [reflexivity|]. split; [|reflexivity]. simpl.
    apply (write_cells_view _ _ _ _ _ _ (fun _ => None)); [exact Hd|].
    rewrite upd_mem_same. do 3 f_equal. lia.
Qed.

(** ... and the same closure running out of elements makes it panic. *)
Lemma new_raw_steps_fail pw {T E : Type} empty bump t len (step : Z -> E -> option (T * E))
    msg (f : Z -> M T E T) (s : St T E) :
  (forall j s0, f j s0 = env_step step msg j s0) ->
  run_steps step 0 (Z.to_nat len) (st_env s) = None ->
  exists msg', new_raw pw empty bump t len (from_fn_init len f) s = Panic msg'.
Proof.
  intros Hf Hrun.
  destruct (Z.eqb_spec len 0) as [->|Hn]; [discriminate|].
  destruct (array pw t len) as [arr|] eqn:Harr.
  2:{ unfold new_raw. rewrite (proj2 (Z.eqb_neq _ _) Hn), Harr. eexists; reflexivity. }
  destruct (extend pw (header_layout pw) arr) as [[layout off]|] eqn:Hext.
  2:{ unfold new_raw. rewrite (proj2 (Z.eqb_neq _ _) Hn), Harr, Hext. eexists; reflexivity. }
  destruct (data_offset pw t) eqn:Hd.
  2:{ unfold new_raw. rewrite (proj2 (Z.eqb_neq _ _) Hn), Harr, Hext.
      unfold bind, data, alloc_layout, write_header. rewrite Hd. cbn [st_mem].
      rewrite upd_mem_same. eexists; reflexivity. }
  rewrite (new_raw_run pw empty bump t len _ s arr layout off Hn Harr Hext) by congruence.
  unfold from_fn_init.
  rewrite (for_range_steps step msg f _ Hf)
    by (cbn [ep_base]; rewrite state_after_header_mem; discriminate).
  change (st_env (state_after_header s bump layout len)) with (st_env s). rewrite Hrun.
  eexists; reflexivity.
Qed.

(** ** Layout facts *)

Lemma ty_wfb_spec pw t : ty_wfb pw t = true ->
  0 <= size t <= isize_max pw /\ 1 <= align t <= 536870912.
Proof.
  unfold ty_wfb. intros H.
  repeat rewrite andb_true_iff in H.
  destruct H as [[[[[H1 H2] H3] H4] _] _].
  apply Z.leb_le in H1, H2, H3, H4. lia.
Qed.

Lemma header_rounded_bound pw t :
  valid_pw pw -> 1 <= align t <= 536870912 ->
  0 <= size_rounded_up_to_custom_align pw (header_layout pw) (align t) <= pw / 8 + align t - 1.
Proof.
  intros Hpw Ha.
  assert (Hhs : pw / 8 = 4 \/ pw / 8 = 8) by (destruct Hpw as [-> | ->]; [left|right]; reflexivity).
  assert (Hp : 2 ^ 32 <= 2 ^ pw) by (destruct Hpw as [-> | ->]; apply Z.leb_le; reflexivity).
  assert (H32 : 2 ^ 32 = 4294967296) by reflexivity.
  unfold size_rounded_up_to_custom_align, header_layout. simpl size.
  rewrite Z.mod_small by lia.
  split.
  - apply Z.land_nonneg. left. lia.
  - pose proof (Z_land_le_l (pw / 8 + (align t - 1)) (Z.lnot (align t - 1))). lia.
Qed.

Lemma isize_max_bound pw : valid_pw pw -> 2147483647 <= isize_max pw.
Proof. intros [-> | ->]; apply Z.leb_le; reflexivity. Qed.

(** Both [expect]s of [new] reject every length whose header-plus-array
    size exceeds [isize::MAX]. *)
Lemma new_raw_oversized pw {T E : Type} empty bump t len (init : ElemPtr -> M T E unit)
    (s : St T E) :
  valid_pw pw -> ty_wfb pw t = true -> 0 <= len ->
  isize_max pw < total_size pw t len ->
  new_raw pw empty bump t len init s = Panic "array size is too large".
Proof.
  intros Hpw Hwf Hlen Htot.
  destruct (ty_wfb_spec _ _ Hwf) as [Hsz Hal].
  pose proof (header_rounded_bound pw t Hpw Hal) as Hr.
  pose proof (isize_max_bound pw Hpw) as Hi.
  assert (Hhs : pw / 8 = 4 \/ pw / 8 = 8) by (destruct Hpw as [-> | ->]; [left|right]; reflexivity).
  unfold total_size in Htot.
  destruct (Z.eqb_spec len 0) as [->|Hn]; [lia|].
  unfold new_raw. rewrite (proj2 (Z.eqb_neq _ _) Hn).
  unfold array.
  destruct (Z.eqb_spec (size t) 0) as [Hz|Hz]; [rewrite Hz in Htot; lia|]. simpl.
  destruct (max_size_for_align pw (align t) / size t <? len); [reflexivity|].
  unfold extend. simpl.
  destruct (usize_max pw <? _); [reflexivity|].
  destruct (Z.ltb_spec (max_size_for_align pw (Z.max (pw / 8) (align t)))
              (size_rounded_up_to_custom_align pw (header_layout pw) (align t) + size t * len))
    as [_|Hle]; [reflexivity|].
  exfalso. unfold max_size_for_align in Hle. lia.
Qed.

(** [extend] of the header with [len >= 1] elements puts them at the same
    offset as with one element. *)
Lemma extend_array_offset pw t len layout off arr :
  1 <= len -> 0 <= size t ->
  array pw t len = Some arr ->
  extend pw (header_layout pw) arr = Some (layout, off) ->
  extend pw (header_layout pw) t =
    Some (mkLayout (off + size t) (Z.max (pw / 8) (align t)), off).
Proof.
  intros Hlen Hsz Harr Hext.
  unfold array in Harr.
  destruct (negb (size t =? 0) && (max_size_for_align pw (align t) / size t <? len));
    [discriminate|].
  injection Harr as <-.
  unfold extend in *. simpl in *.
  destruct (usize_max pw <? _) eqn:H1; [discriminate|].
  destruct (max_size_for_align pw (Z.max (pw / 8) (align t)) <? _) eqn:H2; [discriminate|].
  injection Hext as <- <-.
  apply Z.ltb_ge in H1, H2.
  assert (size t <= size t * len) by nia.
  destruct (Z.ltb_spec (usize_max pw)
              (size_rounded_up_to_custom_align pw (header_layout pw) (align t) + size t));
    [lia|].
  destruct (Z.ltb_spec (max_size_for_align pw (Z.max (pw / 8) (align t)))
              (size_rounded_up_to_custom_align pw (header_layout pw) (align t) + size t));
    [lia|].
  reflexivity.
Qed.

(** For [len >= 1], when header and [len] elements do not fit, [new]
    panics in its layout computation, before allocating or running [init]. *)
Lemma new_raw_unfit pw {T E : Type} empty bump t len (init : ElemPtr -> M T E unit)
    (s : St T E) :
  0 <= size t -> 1 <= len -> layout_fits pw t len = false ->
  new_raw pw empty bump t len init s = Panic "array size is too large".
Proof.
  intros Hsz Hlen Hfit. unfold new_raw.
  rewrite (proj2 (Z.eqb_neq len 0)) by lia.
  destruct (array pw t len) as [arr|] eqn:Harr; [|reflexivity].
  destruct (extend pw (header_layout pw) arr) as [[layout off]|] eqn:Hext; [|reflexivity].
  exfalso. revert Hfit. unfold layout_fits, data_offset, new_layout.
  rewrite (extend_array_offset pw t len layout off arr Hlen Hsz Harr Hext).
  rewrite (proj2 (Z.eqb_neq len 0)) by lia. rewrite Harr, Hext. discriminate.
Qed.

(** * Claims *)

(** ** Empty handles *)

(** C8: [ThinSlice::new] and [ThinSliceMut::new] with [len == 0] return
    the handle type's [default()] and leave the state untouched: no arena
    allocation, and the initialiser [init] (whatever it would do) is not
    run. *)
Theorem new_len_zero_short_circuits :
  forall pw (T E : Type) bump t (init : ElemPtr -> M T E unit) (s : St T E),
    ThinSlice.new pw bump t 0 init s = Ok ThinSlice.default s /\
    ThinSliceMut.new pw bump t 0 init s = Ok ThinSliceMut.default s.
Proof. intros. split; reflexivity. Qed.

(** C1 (as stated, refuted): the two handle types' zero-length handles do
    not share one address: [ThinSlice::new_copy] and [ThinSliceMut::new_copy]
    of an empty slice return headers at different statics. *)
Lemma empty_singleton_shared_counterexample :
  exists h1 h2 (s1 s2 : St Z unit),
    ThinSlice.new_copy 64 0 layout_i32 [] (init_st tt) = Ok h1 s1 /\
    ThinSliceMut.new_copy 64 0 layout_i32 [] (init_st tt) = Ok h2 s2 /\
    ThinSlice.header h1 <> ThinSliceMut.header h2.
Proof.
  do 4 eexists. split; [reflexivity|]. split; [reflexivity|]. discriminate.
Qed.

(** C1 (amended): every zero-length construction of a [ThinSlice]
    (src/lib.rs), for any element type, arena and state, returns
    [ThinSlice::default()] and every zero-length construction of a
    [ThinSliceMut] returns [ThinSliceMut::default()]; each type's
    [default()] has its own [static EMPTY], and the two differ. *)
Theorem zero_length_handles_share_their_type_default :
  (forall pw (T E : Type) `{Clone T} `{Default T} bump t (s : St T E)
      (init : ElemPtr -> M T E unit) (f : Z -> M T E T) (value : T),
    ThinSlice.new pw bump t 0 init s = Ok ThinSlice.default s /\
    ThinSlice.new_clone pw bump t [] s = Ok ThinSlice.default s /\
    ThinSlice.new_copy pw bump t [] s = Ok ThinSlice.default s /\
    ThinSlice.from_fn pw bump t 0 f s = Ok ThinSlice.default s /\
    ThinSlice.new_uninit pw bump t 0 s = Ok ThinSlice.default s /\
    alloc_thin_slice_clone pw bump t [] s = Ok ThinSlice.default s /\
    alloc_thin_slice_copy pw bump t [] s = Ok ThinSlice.default s /\
    alloc_thin_slice_fill_clone pw bump t 0 value s = Ok ThinSlice.default s /\
    alloc_thin_slice_fill_copy pw bump t 0 value s = Ok ThinSlice.default s /\
    alloc_thin_slice_fill_default pw bump t 0 s = Ok ThinSlice.default s /\
    alloc_thin_slice_fill_with pw bump t 0 f s = Ok ThinSlice.default s /\
    ThinSliceMut.new pw bump t 0 init s = Ok ThinSliceMut.default s /\
    ThinSliceMut.new_clone pw bump t [] s = Ok ThinSliceMut.default s /\
    ThinSliceMut.new_copy pw bump t [] s = Ok ThinSliceMut.default s /\
    ThinSliceMut.from_fn pw bump t 0 f s = Ok ThinSliceMut.default s) /\
  (forall pw (T I : Type) `{ExactSizeIterator I T} bump t (it : I) (s : St T I),
    ExactSizeIterator_len it = 0 ->
    alloc_thin_slice_fill_iter pw bump t it s = Ok ThinSlice.default (set_env s it)) /\
  ThinSlice.header ThinSlice.default <> ThinSliceMut.header ThinSliceMut.default.
Proof.
  split; [|split].
  - intros. repeat split.
  - intros pw T I ? bump t it s Hlen.
    unfold alloc_thin_slice_fill_iter, ThinSlice.from_fn, ThinSlice.new, bind, put_env.
    rewrite Hlen. reflexivity.
  - discriminate.
Qed.

Lemma zero_length_handles_share_their_type_default_witness :
  ExactSizeIterator_len (mkRange 5 5) = 0 /\
  alloc_thin_slice_fill_iter 64 0 layout_i32 (mkRange 5 5) (init_st (mkRange 0 0))
    = Ok ThinSlice.default (set_env (init_st (mkRange 0 0)) (mkRange 5 5)).
Proof.
  split; [reflexivity|].
  apply (proj1 (proj2 zero_length_handles_share_their_type_default)).
  reflexivity.
Defined.

(** ** The layout engine *)

(** C6: the offset [data] computes from one element's layout is the
    offset of the element array in the allocation layout built for any
    [len >= 1]: it does not depend on [len]. *)
Theorem data_offset_independent_of_len :
  forall pw t len arr layout off,
    1 <= len -> 0 <= size t ->
    array pw t len = Some arr ->
    extend pw (header_layout pw) arr = Some (layout, off) ->
    data_offset pw t = Some off.
Proof.
  intros pw t len arr layout off Hlen Hsz Harr Hext.
  unfold data_offset. rewrite (extend_array_offset pw t len layout off arr Hlen Hsz Harr Hext).
  reflexivity.
Qed.

Lemma data_offset_independent_of_len_witness :
  array 64 layout_i32 3 = Some (mkLayout 12 4) /\
  extend 64 (header_layout 64) (mkLayout 12 4) = Some (mkLayout 20 8, 8) /\
  data_offset 64 layout_i32 = Some 8.
Proof.
  split; [reflexivity|]. split; [reflexivity|].
  apply (data_offset_independent_of_len 64 layout_i32 3 (mkLayout 12 4) (mkLayout 20 8) 8);
    reflexivity || (vm_compute; congruence).
Defined.

(** C5: on 32- and 64-bit targets, for any well-formed element type, every
    length whose header-plus-array byte size exceeds [isize::MAX] makes
    [ThinSlice::new] and [ThinSliceMut::new] panic with "array size is too
    large", before any allocation. *)
Theorem new_rejects_oversized_layout :
  forall pw (T E : Type) bump t len (init : ElemPtr -> M T E unit) (s : St T E),
    valid_pw pw -> ty_wfb pw t = true -> 0 <= len ->
    isize_max pw < total_size pw t len ->
    ThinSlice.new pw bump t len init s = Panic "array size is too large" /\
    ThinSliceMut.new pw bump t len init s = Panic "array size is too large".
Proof.
  intros pw T E bump t len init s Hpw Hwf Hlen Htot.
  unfold ThinSlice.new, ThinSliceMut.new, bind.
  rewrite !(new_raw_oversized pw _ bump t len init s Hpw Hwf Hlen Htot).
  split; reflexivity.
Qed.

Lemma new_rejects_oversized_layout_witness :
  valid_pw 64 /\ ty_wfb 64 layout_u64 = true /\ 0 <= 2 ^ 61 /\
  isize_max 64 < total_size 64 layout_u64 (2 ^ 61) /\
  ThinSlice.new 64 0 layout_u64 (2 ^ 61) (fun _ => ret tt) (init_st (T := Z) tt)
    = Panic "array size is too large".
Proof.
  assert (Hpw : valid_pw 64) by (right; reflexivity).
  assert (Hwf : ty_wfb 64 layout_u64 = true) by reflexivity.
  assert (Hlen : 0 <= 2 ^ 61) by (apply Z.leb_le; reflexivity).
  assert (Htot : isize_max 64 < total_size 64 layout_u64 (2 ^ 61))
    by (apply Z.ltb_lt; vm_compute; reflexivity).
  split; [exact Hpw|]. split; [exact Hwf|]. split; [exact Hlen|]. split; [exact Htot|].
  exact (proj1 (new_rejects_oversized_layout 64 Z unit 0 layout_u64 (2 ^ 61)
                  (fun _ => ret tt) (init_st tt) Hpw Hwf Hlen Htot)).
Defined.

(** ** Constructors from a source slice *)

Lemma ThinSlice_new_writes pw {T E : Type} bump t (vs : list T)
    (init : ElemPtr -> M T E unit) (s : St T E) :
  layout_fits pw t (Z.of_nat (length vs)) = true ->
  (forall dst (s0 : St T E), st_mem s0 (ep_base dst) <> None ->
     init dst s0 = Ok tt (set_mem s0 (write_cells (st_mem s0) (ep_base dst) (ep_index dst) vs))) ->
  exists h s', ThinSlice.new pw bump t (Z.of_nat (length vs)) init s = Ok h s' /\
    ThinSlice.as_slice pw t (st_mem s') h = Some vs.
Proof.
  intros Hfit Hinit.
  destruct (new_raw_writes pw lib_ThinSlice_EMPTY bump t vs init s Hfit Hinit)
    as (hdr & s' & Heq & Hv).
  exists (ThinSlice.mk hdr), s'. unfold ThinSlice.new, bind. simpl. rewrite Heq.
  split; [reflexivity | exact Hv].
Qed.

Lemma ThinSliceMut_new_writes pw {T E : Type} bump t (vs : list T)
    (init : ElemPtr -> M T E unit) (s : St T E) :
  layout_fits pw t (Z.of_nat (length vs)) = true ->
  (forall dst (s0 : St T E), st_mem s0 (ep_base dst) <> None ->
     init dst s0 = Ok tt (set_mem s0 (write_cells (st_mem s0) (ep_base dst) (ep_index dst) vs))) ->
  exists h s', ThinSliceMut.new pw bump t (Z.of_nat (length vs)) init s = Ok h s' /\
    ThinSliceMut.as_slice pw t (st_mem s') h = Some vs.
Proof.
  intros Hfit Hinit.
  destruct (new_raw_writes pw thin_slice_mut_ThinSliceMut_EMPTY bump t vs init s Hfit Hinit)
    as (hdr & s' & Heq & Hv).
  exists (ThinSliceMut.mk hdr), s'. unfold ThinSliceMut.new, bind. simpl. rewrite Heq.
  split; [reflexivity | exact Hv].
Qed.

Lemma new_clone_init_writes {T E : Type} `{Clone T} (src : list T) dst (s0 : St T E) :
  st_mem s0 (ep_base dst) <> None ->
  new_clone_init src dst s0 =
    Ok tt (set_mem s0 (write_cells (st_mem s0) (ep_base dst) (ep_index dst) (map clone src))).
Proof.
  intros Hs. unfold new_clone_init. rewrite write_enumerate_ok by exact Hs.
  rewrite Z.add_0_r. reflexivity.
Qed.

Lemma new_copy_init_writes {T E : Type} (src : list T) dst (s0 : St T E) :
  st_mem s0 (ep_base dst) <> None ->
  new_copy_init src dst s0 =
    Ok tt (set_mem s0 (write_cells (st_mem s0) (ep_base dst) (ep_index dst) src)).
Proof.
  intros Hs. destruct dst as [b i]. unfold new_copy_init.
  rewrite copy_nonoverlapping_enumerate, write_enumerate_ok by exact Hs.
  reflexivity.
Qed.

(** C3 (as stated, refuted): on a 32-bit target, [new_clone] of a
    two-element slice of [[u8; 1073741822]] (a well-formed type; the slice
    is [2^31 - 4] bytes) panics instead of returning a handle, since header
    and array exceed [isize::MAX]. *)
Lemma new_clone_every_source_counterexample :
  ty_wfb 32 layout_u8_array = true /\
  ThinSlice.new_clone 32 0 layout_u8_array [tt; tt] (init_st (T := unit) tt)
    = Panic "array size is too large" /\
  ThinSlice.new_copy 32 0 layout_u8_array [tt; tt] (init_st (T := unit) tt)
    = Panic "array size is too large".
Proof. split; [reflexivity|]. split; vm_compute; reflexivity. Qed.

(** C3 (amended): whenever header and [src.len()] elements fit in a
    layout, [new_clone] (of [ThinSlice] and of [ThinSliceMut]) returns a
    handle whose view is the elementwise clone of [src], and [new_copy] one
    whose view is [src]; for a non-empty [src] that does not fit, all four
    panic with "array size is too large"; the two views are equal when
    [clone] is the identity, as [Clone] of a [Copy] type is. *)
Theorem new_clone_new_copy_views :
  forall pw (T E : Type) `{Clone T} bump t (src : list T) (s : St T E),
    (layout_fits pw t (Z.of_nat (length src)) = true ->
     (exists h s', ThinSlice.new_clone pw bump t src s = Ok h s' /\
        ThinSlice.as_slice pw t (st_mem s') h = Some (map clone src)) /\
     (exists h s', ThinSlice.new_copy pw bump t src s = Ok h s' /\
        ThinSlice.as_slice pw t (st_mem s') h = Some src) /\
     (exists h s', ThinSliceMut.new_clone pw bump t src s = Ok h s' /\
        ThinSliceMut.as_slice pw t (st_mem s') h = Some (map clone src)) /\
     (exists h s', ThinSliceMut.new_copy pw bump t src s = Ok h s' /\
        ThinSliceMut.as_slice pw t (st_mem s') h = Some src)) /\
    (0 <= size t -> src <> [] -> layout_fits pw t (Z.of_nat (length src)) = false ->
     ThinSlice.new_clone pw bump t src s = Panic "array size is too large" /\
     ThinSlice.new_copy pw bump t src s = Panic "array size is too large" /\
     ThinSliceMut.new_clone pw bump t src s = Panic "array size is too large" /\
     ThinSliceMut.new_copy pw bump t src s = Panic "array size is too large") /\
    ((forall x, In x src -> clone x = x) -> map clone src = src).
Proof.
  intros pw T E Hc bump t src s.
  split; [|split].
  2:{ intros Hsz Hne Hunfit.
      assert (Hl : 1 <= Z.of_nat (length src)) by (destruct src; [congruence | simpl; lia]).
      unfold ThinSlice.new_clone, ThinSlice.new_copy, ThinSliceMut.new_clone,
        ThinSliceMut.new_copy, ThinSlice.new, ThinSliceMut.new, bind.
      rewrite !(new_raw_unfit pw _ bump t (Z.of_nat (length src)) _ s Hsz Hl Hunfit).
      repeat split. }
  2:{ intros Hid. rewrite <- (map_id src) at 2. apply map_ext_in. exact Hid. }
  intros Hfit.
  assert (Hfit' : layout_fits pw t (Z.of_nat (length (map clone src))) = true)
    by (rewrite length_map; exact Hfit).
  split; [|split; [|split]].
  - unfold ThinSlice.new_clone. rewrite <- (length_map clone src).
    apply ThinSlice_new_writes; [exact Hfit'|].
    intros. apply new_clone_init_writes; assumption.
  - apply ThinSlice_new_writes; [exact Hfit|].
    intros. apply new_copy_init_writes; assumption.
  - unfold ThinSliceMut.new_clone. rewrite <- (length_map clone src).
    apply ThinSliceMut_new_writes; [exact Hfit'|].
    intros. apply new_clone_init_writes; assumption.
  - apply ThinSliceMut_new_writes; [exact Hfit|].
    intros. apply new_copy_init_writes; assumption.
Qed.

Lemma new_clone_new_copy_views_witness :
  (layout_fits 64 layout_i32 (Z.of_nat (length [1; 2; 3; 4])) = true /\
   exists h (s' : St Z unit),
     ThinSlice.new_copy 64 0 layout_i32 [1; 2; 3; 4] (init_st tt) = Ok h s' /\
     ThinSlice.as_slice 64 layout_i32 (st_mem s') h = Some [1; 2; 3; 4]) /\
  (0 <= size layout_u8_array /\ [tt; tt] <> [] /\
   layout_fits 32 layout_u8_array (Z.of_nat (length [tt; tt])) = false /\
   ThinSliceMut.new_clone 32 0 layout_u8_array [tt; tt] (init_st (T := unit) tt)
     = Panic "array size is too large").
Proof.
  split.
  - split; [reflexivity|].
    exact (proj1 (proj2 (proj1 (new_clone_new_copy_views 64 Z unit 0 layout_i32 [1; 2; 3; 4]
                                  (init_st tt)) eq_refl))).
  - split; [simpl; lia|]. split; [discriminate|]. split; [reflexivity|].
    exact (proj1 (proj2 (proj2
             (proj1 (proj2 (new_clone_new_copy_views 32 unit unit 0
                              layout_u8_array [tt; tt] (init_st tt)))
                ltac:(simpl; lia) ltac:(discriminate) eq_refl)))).
Defined.

(** ** [from_fn] *)

Lemma run_steps_logged {T : Type} (g : Z -> T) (n : nat) : forall i log,
  run_steps (fun j (l : list Z) => Some (g j, l ++ [j])) i n log =
  Some (map g (zseq i n), log ++ zseq i n).
Proof.
  induction n as [| n IH]; intros i log; simpl.
  - rewrite app_nil_r. reflexivity.
  - rewrite IH, <- app_assoc. reflexivity.
Qed.

Lemma logged_env_step {T : Type} (g : Z -> T) msg :
  forall j (s0 : St T (list Z)),
    logged g j s0 = env_step (fun j (l : list Z) => Some (g j, l ++ [j])) msg j s0.
Proof. reflexivity. Qed.

Lemma zseq_nth (n : nat) : forall i k, (k < n)%nat -> nth_error (zseq i n) k = Some (i + Z.of_nat k).
Proof.
  induction n as [| n IH]; intros i k Hk; [lia|].
  destruct k as [| k]; simpl.
  - rewrite Z.add_0_r. reflexivity.
  - rewrite IH by lia. f_equal. lia.
Qed.

(** C4 (as stated, refuted): [from_fn] with [len = 2^61] over [u64] on a
    64-bit target panics in the layout computation, so it produces no
    handle and never calls [f]. *)
Lemma from_fn_every_len_counterexample :
  ThinSlice.from_fn 64 0 layout_u64 (2 ^ 61) (logged (fun i => i)) (init_st [])
    = Panic "array size is too large".
Proof. vm_compute. reflexivity. Qed.

(** C4 (amended): for every [len] whose layout fits, [from_fn] (of
    [ThinSlice] and of [ThinSliceMut]) with a generator [f(i) = g(i)] that
    records its calls returns a handle whose view is [g(0), ..., g(len-1)],
    and [f] has been called with [0, 1, ..., len-1], once each, in that
    order; more generally, for any [f] whose effect is a step on the
    environment, the view is the sequence of values the steps at
    [0, ..., len-1] produce, and the environment is the one they leave.
    For [len >= 1] that does not fit, [from_fn] panics with
    "array size is too large" whatever [f] is, so [f] is never run. *)
Theorem from_fn_calls_each_index_once_in_order :
  (forall pw (T : Type) bump t len (g : Z -> T) (s : St T (list Z)),
    0 <= len -> layout_fits pw t len = true ->
    (exists h s', ThinSlice.from_fn pw bump t len (logged g) s = Ok h s' /\
       ThinSlice.as_slice pw t (st_mem s') h = Some (map g (zseq 0 (Z.to_nat len))) /\
       st_env s' = st_env s ++ zseq 0 (Z.to_nat len)) /\
    (exists h s', ThinSliceMut.from_fn pw bump t len (logged g) s = Ok h s' /\
       ThinSliceMut.as_slice pw t (st_mem s') h = Some (map g (zseq 0 (Z.to_nat len))) /\
       st_env s' = st_env s ++ zseq 0 (Z.to_nat len)) /\
    (forall i, 0 <= i < len -> nth_error (map g (zseq 0 (Z.to_nat len))) (Z.to_nat i) = Some (g i))) /\
  (forall pw (T E : Type) bump t len (step : Z -> E -> option (T * E)) msg
      (f : Z -> M T E T) (s : St T E) vs e',
    (forall j s0, f j s0 = env_step step msg j s0) ->
    0 <= len -> layout_fits pw t len = true ->
    run_steps step 0 (Z.to_nat len) (st_env s) = Some (vs, e') ->
    (exists h s', ThinSlice.from_fn pw bump t len f s = Ok h s' /\
       ThinSlice.as_slice pw t (st_mem s') h = Some vs /\ st_env s' = e') /\
    (exists h s', ThinSliceMut.from_fn pw bump t len f s = Ok h s' /\
       ThinSliceMut.as_slice pw t (st_mem s') h = Some vs /\ st_env s' = e')) /\
  (forall pw (T E : Type) bump t len (f : Z -> M T E T) (s : St T E),
    0 <= size t -> 1 <= len -> layout_fits pw t len = false ->
    ThinSlice.from_fn pw bump t len f s = Panic "array size is too large" /\
    ThinSliceMut.from_fn pw bump t len f s = Panic "array size is too large").
Proof.
  split; [|split].
  2:{ intros pw T E bump t len step msg f s vs e' Hf Hlen Hfit Hrun. split.
      - destruct (new_raw_steps pw lib_ThinSlice_EMPTY bump t len step msg f s vs e'
                    Hf Hlen Hfit Hrun) as (hdr & s' & Heq & Hv & He).
        exists (ThinSlice.mk hdr), s'. unfold ThinSlice.from_fn, ThinSlice.new, bind. simpl.
        rewrite Heq. auto.
      - destruct (new_raw_steps pw thin_slice_mut_ThinSliceMut_EMPTY bump t len step msg f s vs e'
                    Hf Hlen Hfit Hrun) as (hdr & s' & Heq & Hv & He).
        exists (ThinSliceMut.mk hdr), s'. unfold ThinSliceMut.from_fn, ThinSliceMut.new, bind. simpl.
        rewrite Heq. auto. }
  2:{ intros pw T E bump t len f s Hsz Hlen Hunfit.
      unfold ThinSlice.from_fn, ThinSliceMut.from_fn, ThinSlice.new, ThinSliceMut.new, bind.
      rewrite !(new_raw_unfit pw _ bump t len _ s Hsz Hlen Hunfit). split; reflexivity. }
  intros pw T bump t len g s Hlen Hfit.
  split; [|split].
  - destruct (new_raw_steps pw lib_ThinSlice_EMPTY bump t len _ "" (logged g) s _ _
                (logged_env_step g "") Hlen Hfit (run_steps_logged g _ 0 (st_env s)))
      as (hdr & s' & Heq & Hv & He).
    exists (ThinSlice.mk hdr), s'. unfold ThinSlice.from_fn, ThinSlice.new, bind. simpl.
    rewrite Heq. auto.
  - destruct (new_raw_steps pw thin_slice_mut_ThinSliceMut_EMPTY bump t len _ "" (logged g) s _ _
                (logged_env_step g "") Hlen Hfit (run_steps_logged g _ 0 (st_env s)))
      as (hdr & s' & Heq & Hv & He).
    exists (ThinSliceMut.mk hdr), s'. unfold ThinSliceMut.from_fn, ThinSliceMut.new, bind. simpl.
    rewrite Heq. auto.
  - intros i Hi. rewrite nth_error_map, zseq_nth by lia. simpl. f_equal. f_equal. lia.
Qed.

Lemma from_fn_calls_each_index_once_in_order_witness :
  (0 <= 10 /\ layout_fits 64 layout_u64 10 = true /\
   exists h (s' : St Z (list Z)),
     ThinSlice.from_fn 64 0 layout_u64 10 (logged (fun i => i)) (init_st []) = Ok h s' /\
     ThinSlice.as_slice 64 layout_u64 (st_mem s') h = Some [0; 1; 2; 3; 4; 5; 6; 7; 8; 9] /\
     st_env s' = [0; 1; 2; 3; 4; 5; 6; 7; 8; 9]) /\
  (exists h (s' : St Z Counter),
     ThinSliceMut.from_fn 64 0 layout_u64 3
       (env_step (fun _ e => Iterator_next e) "end") (init_st (mkCounter 5 0)) = Ok h s' /\
     ThinSliceMut.as_slice 64 layout_u64 (st_mem s') h = Some [5; 6; 7] /\
     st_env s' = mkCounter 8 0) /\
  (0 <= size layout_u64 /\ 1 <= 2 ^ 61 /\ layout_fits 64 layout_u64 (2 ^ 61) = false /\
   ThinSlice.from_fn 64 0 layout_u64 (2 ^ 61) (fun _ => panic (T := Z) (E := unit) "f was called"%string)
     (init_st tt) = Panic "array size is too large").
Proof.
  split; [|split].
  - split; [lia|]. split; [reflexivity|].
    exact (proj1 ((proj1 from_fn_calls_each_index_once_in_order) 64 Z 0%nat layout_u64 10 (fun i => i)
                    (init_st []) ltac:(lia) eq_refl)).
  - exact (proj2 ((proj1 (proj2 from_fn_calls_each_index_once_in_order)) 64 Z Counter 0%nat layout_u64 3
             (fun _ e => Iterator_next e) "end"%string _ (init_st (mkCounter 5 0)) [5; 6; 7] (mkCounter 8 0)
             (fun j s0 => eq_refl) ltac:(lia) eq_refl eq_refl)).
  - split; [simpl; lia|]. split; [apply Z.leb_le; reflexivity|]. split; [reflexivity|].
    exact (proj1 ((proj2 (proj2 from_fn_calls_each_index_once_in_order)) 64 Z unit 0%nat layout_u64
             (2 ^ 61) (fun _ => panic (T := Z) (E := unit) "f was called"%string) (init_st tt)
             ltac:(simpl; lia) ltac:(apply Z.leb_le; reflexivity) eq_refl)).
Defined.

(** ** [alloc_thin_slice_fill_iter] *)

Lemma run_steps_iter_take {T I : Type} `{ExactSizeIterator I T} (n : nat) : forall i (it : I),
  run_steps (fun _ e => Iterator_next e) i n it = iter_take n it.
Proof.
  induction n as [| n IH]; intros i it; simpl; [reflexivity|].
  destruct (Iterator_next it) as [[x it']|]; [|reflexivity].
  rewrite IH. reflexivity.
Qed.

Lemma next_expect_env_step {T I : Type} `{ExactSizeIterator I T} :
  forall (j : Z) (s0 : St T I),
    next_expect s0 = env_step (fun _ e => Iterator_next e) "Iterator supplied to few elements" j s0.
Proof. reflexivity. Qed.

Lemma fill_iter_unfold pw {T I : Type} `{ExactSizeIterator I T} bump t (it : I) (s : St T I) :
  alloc_thin_slice_fill_iter pw bump t it s =
  match new_raw pw (Static lib_ThinSlice_EMPTY) bump t (ExactSizeIterator_len it)
          (from_fn_init (ExactSizeIterator_len it) (fun _ => next_expect)) (set_env s it) with
  | Ok hdr s' => Ok (ThinSlice.mk hdr) s'
  | Panic msg => Panic msg
  end.
Proof.
  unfold alloc_thin_slice_fill_iter, ThinSlice.from_fn, ThinSlice.new, put_env, bind, ret.
  destruct (new_raw _ _ _ _ _ _ _); reflexivity.
Qed.

(** An iterator yielding its reported length fills the slice with its
    first [len] items and is left after them. *)
Lemma fill_iter_run pw {T I : Type} `{ExactSizeIterator I T} bump t (it : I) (s : St T I) vs it' :
  0 <= ExactSizeIterator_len it ->
  layout_fits pw t (ExactSizeIterator_len it) = true ->
  iter_take (Z.to_nat (ExactSizeIterator_len it)) it = Some (vs, it') ->
  exists h s', alloc_thin_slice_fill_iter pw bump t it s = Ok h s' /\
    ThinSlice.as_slice pw t (st_mem s') h = Some vs /\ st_env s' = it' /\
    length vs = Z.to_nat (ExactSizeIterator_len it).
Proof.
  intros Hlen Hfit Htake.
  rewrite <- (run_steps_iter_take _ 0) in Htake.
  destruct (new_raw_steps pw lib_ThinSlice_EMPTY bump t (ExactSizeIterator_len it) _ _
              (fun _ => next_expect) (set_env s it) vs it'
              next_expect_env_step Hlen Hfit Htake) as (hdr & s' & Heq & Hv & He).
  exists (ThinSlice.mk hdr), s'. rewrite fill_iter_unfold, Heq.
  split; [reflexivity|]. split; [exact Hv|]. split; [exact He|].
  exact (run_steps_length _ _ _ _ _ _ Htake).
Qed.

Lemma iter_take_range (n : nat) : forall a b,
  a + Z.of_nat n <= b -> iter_take n (mkRange a b) = Some (zseq a n, mkRange (a + Z.of_nat n) b).
Proof.
  induction n as [| n IH]; intros a b Hab; simpl.
  - rewrite Z.add_0_r. reflexivity.
  - replace (a <? b) with true by (symmetry; apply Z.ltb_lt; lia).
    rewrite IH by lia. do 3 f_equal. lia.
Qed.

Lemma iter_take_counter (n : nat) : forall p r,
  iter_take n (mkCounter p r) = Some (zseq p n, mkCounter (p + Z.of_nat n) r).
Proof.
  induction n as [| n IH]; intros p r; simpl.
  - rewrite Z.add_0_r. reflexivity.
  - rewrite IH. do 3 f_equal. lia.
Qed.

(** C2 (as stated, refuted): the range [0 .. 2^64 - 1] yields exactly its
    reported length, yet filling a [u64] slice from it on a 64-bit target
    panics in the layout computation instead of returning a handle. *)
Lemma fill_iter_reported_length_counterexample :
  iter_take (Z.to_nat (ExactSizeIterator_len (mkRange 0 (2 ^ 64 - 1)))) (mkRange 0 (2 ^ 64 - 1))
    <> None /\
  alloc_thin_slice_fill_iter 64 0 layout_u64 (mkRange 0 (2 ^ 64 - 1)) (init_st (T := Z) (mkRange 0 0))
    = Panic "array size is too large".
Proof.
  split.
  - change (ExactSizeIterator_len (mkRange 0 (2 ^ 64 - 1))) with (Z.max 0 (2 ^ 64 - 1 - 0)).
    rewrite iter_take_range; [discriminate|].
    rewrite Z2Nat.id; lia.
  - vm_compute. reflexivity.
Qed.

(** C2 (amended): an iterator yielding fewer items than its reported
    length makes [alloc_thin_slice_fill_iter] panic; one yielding at least
    its reported length gives a handle whose length is the reported length,
    provided that many elements fit behind a header; a non-zero reported
    length that does not fit makes it panic with "array size is too large"
    (the error of C5), whatever the iterator yields. *)
Theorem fill_iter_short_panics_else_reported_length :
  (forall pw (T I : Type) `{ExactSizeIterator I T} bump t (it : I) (s : St T I),
     iter_take (Z.to_nat (ExactSizeIterator_len it)) it = None ->
     exists msg, alloc_thin_slice_fill_iter pw bump t it s = Panic msg) /\
  (forall pw (T I : Type) `{ExactSizeIterator I T} bump t (it : I) (s : St T I) vs it',
     0 <= ExactSizeIterator_len it ->
     layout_fits pw t (ExactSizeIterator_len it) = true ->
     iter_take (Z.to_nat (ExactSizeIterator_len it)) it = Some (vs, it') ->
     exists h s' xs, alloc_thin_slice_fill_iter pw bump t it s = Ok h s' /\
       ThinSlice.as_slice pw t (st_mem s') h = Some xs /\
       Z.of_nat (length xs) = ExactSizeIterator_len it) /\
  (forall pw (T I : Type) `{ExactSizeIterator I T} bump t (it : I) (s : St T I),
     0 <= size t -> 1 <= ExactSizeIterator_len it ->
     layout_fits pw t (ExactSizeIterator_len it) = false ->
     alloc_thin_slice_fill_iter pw bump t it s = Panic "array size is too large").
Proof.
  split; [|split].
  - intros pw T I ? bump t it s Htake.
    rewrite <- (run_steps_iter_take _ 0) in Htake.
    destruct (new_raw_steps_fail pw (Static lib_ThinSlice_EMPTY) bump t (ExactSizeIterator_len it)
                _ _ (fun _ => next_expect) (set_env s it) next_expect_env_step Htake)
      as [msg Hp].
    exists msg. rewrite fill_iter_unfold, Hp. reflexivity.
  - intros pw T I ? bump t it s vs it' Hlen Hfit Htake.
    destruct (fill_iter_run pw bump t it s vs it' Hlen Hfit Htake) as (h & s' & Heq & Hv & _ & Hl).
    exists h, s', vs. split; [exact Heq|]. split; [exact Hv|]. rewrite Hl. lia.
  - intros pw T I ? bump t it s Hsz Hlen Hunfit.
    rewrite fill_iter_unfold, (new_raw_unfit pw _ bump t _ _ _ Hsz Hlen Hunfit). reflexivity.
Qed.

Lemma fill_iter_short_panics_else_reported_length_witness :
  (iter_take (Z.to_nat (ExactSizeIterator_len (mkReported (mkRange 0 2) 5))) (mkReported (mkRange 0 2) 5)
     = None /\
   exists msg, alloc_thin_slice_fill_iter 64 0 layout_u64 (mkReported (mkRange 0 2) 5)
                 (init_st (T := Z) (mkReported (mkRange 0 0) 0)) = Panic msg) /\
  (0 <= ExactSizeIterator_len (mkRange 3 7) /\
   layout_fits 64 layout_u64 (ExactSizeIterator_len (mkRange 3 7)) = true /\
   exists h s' xs, alloc_thin_slice_fill_iter 64 0 layout_u64 (mkRange 3 7)
                     (init_st (T := Z) (mkRange 0 0)) = Ok h s' /\
     ThinSlice.as_slice 64 layout_u64 (st_mem s') h = Some xs /\
     Z.of_nat (length xs) = ExactSizeIterator_len (mkRange 3 7)) /\
  (0 <= size layout_u64 /\ 1 <= ExactSizeIterator_len (mkRange 0 (2 ^ 61)) /\
   layout_fits 64 layout_u64 (ExactSizeIterator_len (mkRange 0 (2 ^ 61))) = false /\
   alloc_thin_slice_fill_iter 64 0 layout_u64 (mkRange 0 (2 ^ 61))
     (init_st (T := Z) (mkRange 0 0)) = Panic "array size is too large").
Proof.
  split; [|split]; [split|split|].
  - reflexivity.
  - apply (proj1 fill_iter_short_panics_else_reported_length). reflexivity.
  - simpl. lia.
  - split; [reflexivity|].
    eapply (proj1 (proj2 fill_iter_short_panics_else_reported_length));
      [simpl; lia | reflexivity | reflexivity].
  - split; [simpl; lia|]. split; [apply Z.leb_le; reflexivity|]. split; [reflexivity|].
    apply (proj2 (proj2 fill_iter_short_panics_else_reported_length));
      [simpl; lia | apply Z.leb_le; reflexivity | reflexivity].
Defined.

(** C10 (as stated, refuted): an iterator that never runs out and reports
    [2^61] items makes filling a [u64] slice on a 64-bit target panic in the
    layout computation: no handle of the reported length is produced. *)
Lemma fill_iter_surplus_counterexample :
  (forall n, iter_take n (mkCounter 0 (2 ^ 61)) <> None) /\
  alloc_thin_slice_fill_iter 64 0 layout_u64 (mkCounter 0 (2 ^ 61)) (init_st (T := Z) (mkCounter 0 0))
    = Panic "array size is too large".
Proof.
  split.
  - intros n. rewrite iter_take_counter. discriminate.
  - vm_compute. reflexivity.
Qed.

(** C10 (amended): for an iterator able to yield its reported length [len]
    (surplus items or not), when [len] elements fit behind a header,
    [alloc_thin_slice_fill_iter] takes exactly the first [len] items: the
    view is those items, the iterator is left just after them, and the
    length is [len]; when [len >= 1] elements do not fit, it panics with
    "array size is too large". *)
Theorem fill_iter_consumes_exactly_reported :
  (forall pw (T I : Type) `{ExactSizeIterator I T} bump t (it : I) (s : St T I) vs it',
    0 <= ExactSizeIterator_len it ->
    layout_fits pw t (ExactSizeIterator_len it) = true ->
    iter_take (Z.to_nat (ExactSizeIterator_len it)) it = Some (vs, it') ->
    exists h s', alloc_thin_slice_fill_iter pw bump t it s = Ok h s' /\
      ThinSlice.as_slice pw t (st_mem s') h = Some vs /\
      st_env s' = it' /\
      Z.of_nat (length vs) = ExactSizeIterator_len it) /\
  (forall pw (T I : Type) `{ExactSizeIterator I T} bump t (it : I) (s : St T I),
    0 <= size t -> 1 <= ExactSizeIterator_len it ->
    layout_fits pw t (ExactSizeIterator_len it) = false ->
    alloc_thin_slice_fill_iter pw bump t it s = Panic "array size is too large").
Proof.
  split.
  - intros pw T I ? bump t it s vs it' Hlen Hfit Htake.
    destruct (fill_iter_run pw bump t it s vs it' Hlen Hfit Htake) as (h & s' & Heq & Hv & He & Hl).
    exists h, s'. repeat split; try assumption. rewrite Hl. lia.
  - intros pw T I ? bump t it s Hsz Hlen Hunfit.
    rewrite fill_iter_unfold, (new_raw_unfit pw _ bump t _ _ _ Hsz Hlen Hunfit). reflexivity.
Qed.

Lemma fill_iter_consumes_exactly_reported_witness :
  0 <= ExactSizeIterator_len (mkCounter 10 3) /\
  layout_fits 64 layout_u64 (ExactSizeIterator_len (mkCounter 10 3)) = true /\
  iter_take (Z.to_nat (ExactSizeIterator_len (mkCounter 10 3))) (mkCounter 10 3)
    = Some ([10; 11; 12], mkCounter 13 3) /\
  (exists h s', alloc_thin_slice_fill_iter 64 0 layout_u64 (mkCounter 10 3)
                  (init_st (T := Z) (mkCounter 0 0)) = Ok h s' /\
     ThinSlice.as_slice 64 layout_u64 (st_mem s') h = Some [10; 11; 12] /\
     st_env s' = mkCounter 13 3 /\
     Z.of_nat (length [10; 11; 12]) = ExactSizeIterator_len (mkCounter 10 3)) /\
  (0 <= size layout_u64 /\ 1 <= ExactSizeIterator_len (mkCounter 0 (2 ^ 61)) /\
   layout_fits 64 layout_u64 (ExactSizeIterator_len (mkCounter 0 (2 ^ 61))) = false /\
   alloc_thin_slice_fill_iter 64 0 layout_u64 (mkCounter 0 (2 ^ 61))
     (init_st (T := Z) (mkCounter 0 0)) = Panic "array size is too large").
Proof.
  split; [simpl; lia|]. split; [reflexivity|]. split; [reflexivity|].
  split.
  - apply ((proj1 fill_iter_consumes_exactly_reported) 64 Z Counter _ 0%nat layout_u64 (mkCounter 10 3)
             (init_st (mkCounter 0 0)) [10; 11; 12] (mkCounter 13 3)); [simpl; lia | reflexivity | reflexivity].
  - split; [simpl; lia|]. split; [apply Z.leb_le; reflexivity|]. split; [reflexivity|].
    apply ((proj2 fill_iter_consumes_exactly_reported) 64 Z Counter _ 0%nat layout_u64
             (mkCounter 0 (2 ^ 61)) (init_st (mkCounter 0 0)));
      [simpl; lia | apply Z.leb_le; reflexivity | reflexivity].
Defined.

(** ** [PartialEq] and [Hash] *)

Lemma all_eq_pointwise {T : Type} `{PartialEq T} (xs : list T) : forall ys,
  length xs = length ys ->
  (forall i x y, nth_error xs i = Some x -> nth_error ys i = Some y -> PartialEq_eq x y = true) ->
  all_eq xs ys = true.
Proof.
  induction xs as [| x xs IH]; intros [| y ys] Hl Hp; try discriminate; [reflexivity|].
  simpl. rewrite (Hp 0%nat x y eq_refl eq_refl). simpl.
  apply IH; [simpl in Hl; lia|].
  intros i a b Ha Hb. exact (Hp (S i) a b Ha Hb).
Qed.

Lemma fold_hash_pointwise {T : Type} `{PartialEq T} `{Hash T} {Hs : Type} (hh : Hasher Hs)
    (Hc : forall x y st, PartialEq_eq x y = true -> Hash_hash Hs hh x st = Hash_hash Hs hh y st)
    (xs : list T) : forall ys (st : Hs),
  length xs = length ys ->
  (forall i x y, nth_error xs i = Some x -> nth_error ys i = Some y -> PartialEq_eq x y = true) ->
  fold_left (fun st x => Hash_hash Hs hh x st) xs st =
  fold_left (fun st x => Hash_hash Hs hh x st) ys st.
Proof.
  induction xs as [| x xs IH]; intros [| y ys] st Hl Hp; try discriminate; [reflexivity|].
  simpl. rewrite (Hc x y st (Hp 0%nat x y eq_refl eq_refl)).
  apply IH; [simpl in Hl; lia|].
  intros i a b Ha Hb. exact (Hp (S i) a b Ha Hb).
Qed.

(** C7: two handles, wherever they were allocated, whose views have the
    same length and pairwise [==] elements compare equal; and, for an
    element type whose [Hash] agrees with its [PartialEq] (the contract of
    the [Hash] trait), they hash to the same state from any hasher state. *)
Theorem equal_views_compare_and_hash_equal :
  forall pw (T : Type) `{PartialEq T} `{Hash T} t (m : addr -> option (Alloc T))
         (a b : ThinSlice.ThinSlice) xs ys,
    ThinSlice.as_slice pw t m a = Some xs ->
    ThinSlice.as_slice pw t m b = Some ys ->
    length xs = length ys ->
    (forall i x y, nth_error xs i = Some x -> nth_error ys i = Some y -> PartialEq_eq x y = true) ->
    ThinSlice.eq pw t m a b = Some true /\
    ((forall (Hs : Type) (hh : Hasher Hs) x y st,
        PartialEq_eq x y = true -> Hash_hash Hs hh x st = Hash_hash Hs hh y st) ->
     forall (Hs : Type) (hh : Hasher Hs) (st : Hs),
       ThinSlice.hash pw t m a st = ThinSlice.hash pw t m b st).
Proof.
  intros pw T ? ? t m a b xs ys Ha Hb Hl Hp. split.
  - unfold ThinSlice.eq. rewrite Ha, Hb. unfold slice_eq.
    rewrite Hl, Nat.eqb_refl. simpl. f_equal. apply all_eq_pointwise; assumption.
  - intros Hc Hs hh st. unfold ThinSlice.hash. rewrite Ha, Hb. unfold slice_hash.
    rewrite Hl. f_equal. apply fold_hash_pointwise; auto.
Qed.

Lemma equal_views_compare_and_hash_equal_witness :
  let cells := fun i => if i =? 0 then Some 7 else if i =? 1 then Some 9 else None in
  let m := fun a => if addr_eqb a (Arena 0 4096) then Some (mkAlloc (Some 2) cells)
                    else if addr_eqb a (Arena 1 8192) then Some (mkAlloc (Some 2) cells)
                    else None in
  ThinSlice.as_slice 64 layout_u64 m (ThinSlice.mk (Arena 0 4096)) = Some [7; 9] /\
  ThinSlice.as_slice 64 layout_u64 m (ThinSlice.mk (Arena 1 8192)) = Some [7; 9] /\
  ThinSlice.eq 64 layout_u64 m (ThinSlice.mk (Arena 0 4096)) (ThinSlice.mk (Arena 1 8192)) = Some true /\
  ThinSlice.hash 64 layout_u64 m (ThinSlice.mk (Arena 0 4096)) 5 =
  ThinSlice.hash 64 layout_u64 m (ThinSlice.mk (Arena 1 8192)) 5.
Proof.
  intros cells m.
  assert (Ha : ThinSlice.as_slice 64 layout_u64 m (ThinSlice.mk (Arena 0 4096)) = Some [7; 9])
    by reflexivity.
  assert (Hb : ThinSlice.as_slice 64 layout_u64 m (ThinSlice.mk (Arena 1 8192)) = Some [7; 9])
    by reflexivity.
  destruct (equal_views_compare_and_hash_equal 64 Z layout_u64 m _ _ [7; 9] [7; 9] Ha Hb eq_refl)
    as [Heq Hh].
  - intros [| [| i]] x y Hx Hy; simpl in Hx, Hy;
      [injection Hx as <-; injection Hy as <-; reflexivity
      | injection Hx as <-; injection Hy as <-; reflexivity
      | destruct i; discriminate].
  - split; [exact Ha|]. split; [exact Hb|]. split; [exact Heq|].
    apply Hh. intros Hs hh x y st Hxy. apply Z.eqb_eq in Hxy. subst y. reflexivity.
Defined.

(** * Further properties of the crate *)

(** ** Layout arithmetic *)

Lemma pow2_of_land (a : Z) : 1 <= a -> Z.land a (a - 1) = 0 -> a = 2 ^ Z.log2 a.
Proof.
  intros Ha Hl.
  destruct (Z.log2_spec a) as [Hlo Hhi]; [lia|].
  destruct (Z.eq_dec a (2 ^ Z.log2 a)) as [E|Hne]; [exact E|exfalso].
  assert (0 < 2 ^ Z.log2 a) by (apply Z.pow_pos_nonneg; [lia | apply Z.log2_nonneg]).
  assert (Hk : Z.log2 (a - 1) = Z.log2 a).
  { apply Z.log2_unique; [apply Z.log2_nonneg|]. lia. }
  assert (Hb : Z.testbit (Z.land a (a - 1)) (Z.log2 a) = true).
  { rewrite Z.land_spec, Z.bit_log2 by lia.
    rewrite <- Hk. rewrite Z.bit_log2 by lia. reflexivity. }
  rewrite Hl, Z.bits_0 in Hb. discriminate.
Qed.

Lemma land_lnot_round (x a : Z) :
  1 <= a -> Z.land a (a - 1) = 0 -> 0 <= x ->
  Z.land x (Z.lnot (a - 1)) = x / a * a.
Proof.
  intros Ha Hl Hx.
  pose proof (pow2_of_land a Ha Hl) as Hp.
  assert (Hk : 0 <= Z.log2 a) by apply Z.log2_nonneg.
  assert (Ho : a - 1 = Z.ones (Z.log2 a)) by (rewrite Z.ones_equiv; lia).
  rewrite Ho, <- Z.ldiff_land, Z.ldiff_ones_r by exact Hk.
  rewrite Z.shiftl_mul_pow2, Z.shiftr_div_pow2 by exact Hk.
  rewrite <- Hp. reflexivity.
Qed.

Lemma ty_wfb_pow2 pw t : ty_wfb pw t = true -> Z.land (align t) (align t - 1) = 0.
Proof.
  unfold ty_wfb. intros H. repeat rewrite andb_true_iff in H.
  destruct H as [[_ H] _]. apply Z.eqb_eq in H. exact H.
Qed.

Lemma ty_wfb_mod pw t : ty_wfb pw t = true -> size t mod align t = 0.
Proof.
  unfold ty_wfb. intros H. repeat rewrite andb_true_iff in H.
  destruct H as [_ H]. apply Z.eqb_eq in H. exact H.
Qed.

Lemma header_rounded_closed pw t :
  valid_pw pw -> ty_wfb pw t = true ->
  size_rounded_up_to_custom_align pw (header_layout pw) (align t) = round_up (pw / 8) (align t).
Proof.
  intros Hpw Hwf.
  destruct (ty_wfb_spec _ _ Hwf) as [Hsz Hal].
  assert (Hhs : pw / 8 = 4 \/ pw / 8 = 8) by (destruct Hpw as [-> | ->]; [left|right]; reflexivity).
  assert (Hp : 2 ^ 32 <= 2 ^ pw) by (destruct Hpw as [-> | ->]; apply Z.leb_le; reflexivity).
  assert (H32 : 2 ^ 32 = 4294967296) by reflexivity.
  unfold size_rounded_up_to_custom_align, header_layout, round_up. simpl size.
  rewrite Z.mod_small by lia.
  rewrite land_lnot_round by (first [exact (ty_wfb_pow2 pw t Hwf) | lia]).
  f_equal. f_equal. lia.
Qed.

Lemma round_up_bounds (x a : Z) :
  1 <= a -> x <= round_up x a <= x + a - 1 /\ round_up x a mod a = 0.
Proof.
  intros Ha. unfold round_up.
  pose proof (Z.div_mod (x + a - 1) a ltac:(lia)) as Hd.
  pose proof (Z.mod_pos_bound (x + a - 1) a ltac:(lia)) as Hm.
  split; [lia|]. apply Z.mod_mul. lia.
Qed.

Lemma valid_pw_facts pw : valid_pw pw ->
  (pw / 8 = 4 \/ pw / 8 = 8) /\ 2147483647 <= isize_max pw /\
  usize_max pw = 2 * isize_max pw + 1.
Proof.
  intros [-> | ->]; split; [left; reflexivity| |right; reflexivity|];
    split; apply Z.eqb_eq || apply Z.leb_le; reflexivity.
Qed.

(** X1: [data::<T>] computes the header size rounded up to [T]'s alignment,
    which lies at or after the header, is a multiple of [T]'s alignment and
    wastes less than one alignment; [Layout::extend] fails, so [data]'s
    [unwrap] panics, exactly when that offset plus [size_of::<T>()] exceeds
    [isize::MAX + 1 - max(align_of::<usize>(), align_of::<T>())]. *)
Theorem data_offset_closed_form :
  forall pw t, valid_pw pw -> ty_wfb pw t = true ->
    data_offset pw t =
      (if round_up (pw / 8) (align t) + size t
            <=? max_size_for_align pw (Z.max (pw / 8) (align t))
       then Some (round_up (pw / 8) (align t)) else None) /\
    pw / 8 <= round_up (pw / 8) (align t) <= pw / 8 + align t - 1 /\
    round_up (pw / 8) (align t) mod align t = 0.
Proof.
  intros pw t Hpw Hwf.
  destruct (ty_wfb_spec _ _ Hwf) as [Hsz Hal].
  destruct (valid_pw_facts pw Hpw) as (Hhs & Hi & Hu).
  destruct (round_up_bounds (pw / 8) (align t) ltac:(lia)) as [Hb Hm].
  split; [|split; [exact Hb | exact Hm]].
  unfold data_offset, extend. rewrite header_rounded_closed by assumption.
  simpl align. simpl size.
  destruct (Z.ltb_spec (usize_max pw) (round_up (pw / 8) (align t) + size t)); [lia|].
  unfold max_size_for_align in *.
  destruct (Z.ltb_spec (isize_max pw + 1 - Z.max (pw / 8) (align t))
              (round_up (pw / 8) (align t) + size t));
  destruct (Z.leb_spec (round_up (pw / 8) (align t) + size t)
              (isize_max pw + 1 - Z.max (pw / 8) (align t))); try lia; reflexivity.
Qed.

Lemma data_offset_closed_form_witness :
  valid_pw 64 /\ ty_wfb 64 (mkLayout 12 4) = true /\
  data_offset 64 (mkLayout 12 4) = Some 8.
Proof.
  split; [right; reflexivity|]. split; [reflexivity|].
  destruct (data_offset_closed_form 64 (mkLayout 12 4) (or_intror eq_refl) eq_refl) as [H _].
  rewrite H. reflexivity.
Defined.

(** X2: for a non-zero [len], the layout [new] allocates is the padded
    header followed by the [len] elements, aligned to the larger of the two
    alignments; the computation fails ("array size is too large") exactly
    when that size exceeds
    [isize::MAX + 1 - max(align_of::<usize>(), align_of::<T>())]. *)
Theorem new_layout_closed_form :
  forall pw t len, valid_pw pw -> ty_wfb pw t = true -> 1 <= len ->
    new_layout pw t len =
      if round_up (pw / 8) (align t) + size t * len
           <=? max_size_for_align pw (Z.max (pw / 8) (align t))
      then Some (mkLayout (round_up (pw / 8) (align t) + size t * len)
                          (Z.max (pw / 8) (align t)))
      else None.
Proof.
  intros pw t len Hpw Hwf Hlen.
  destruct (ty_wfb_spec _ _ Hwf) as [Hsz Hal].
  destruct (valid_pw_facts pw Hpw) as (Hhs & Hi & Hu).
  destruct (round_up_bounds (pw / 8) (align t) ltac:(lia)) as [Hb Hm].
  set (r := round_up (pw / 8) (align t)) in *.
  unfold new_layout, array, max_size_for_align in *.
  destruct (Z.eqb_spec (size t) 0) as [Hz|Hz].
  - rewrite Hz. simpl. unfold extend. simpl align. simpl size.
    rewrite (header_rounded_closed pw t Hpw Hwf). fold r.
    destruct (Z.ltb_spec (usize_max pw) (r + 0)); [lia|].
    unfold max_size_for_align.
    destruct (Z.ltb_spec (isize_max pw + 1 - Z.max (pw / 8) (align t)) (r + 0));
    destruct (Z.leb_spec (r + 0) (isize_max pw + 1 - Z.max (pw / 8) (align t)));
      try lia; reflexivity.
  - simpl.
    destruct (Z.ltb_spec ((isize_max pw + 1 - align t) / size t) len) as [Hov|Hok].
    + pose proof (Z.mul_succ_div_gt (isize_max pw + 1 - align t) (size t) ltac:(lia)) as Hg.
      assert (size t * Z.succ ((isize_max pw + 1 - align t) / size t) <= size t * len)
        by (apply Z.mul_le_mono_nonneg_l; lia).
      destruct (Z.leb_spec (r + size t * len) (isize_max pw + 1 - Z.max (pw / 8) (align t)));
        [lia | reflexivity].
    + unfold extend. simpl align. simpl size.
      rewrite (header_rounded_closed pw t Hpw Hwf). fold r. unfold max_size_for_align.
      destruct (Z.ltb_spec (usize_max pw) (r + size t * len)).
      * destruct (Z.leb_spec (r + size t * len) (isize_max pw + 1 - Z.max (pw / 8) (align t)));
          [lia | reflexivity].
      * destruct (Z.ltb_spec (isize_max pw + 1 - Z.max (pw / 8) (align t)) (r + size t * len));
        destruct (Z.leb_spec (r + size t * len) (isize_max pw + 1 - Z.max (pw / 8) (align t)));
          try lia; reflexivity.
Qed.

Lemma new_layout_closed_form_witness :
  valid_pw 32 /\ ty_wfb 32 (mkLayout 1 1) = true /\ 1 <= 2147483640 /\
  new_layout 32 (mkLayout 1 1) 2147483640 = Some (mkLayout 2147483644 4) /\
  1 <= 2147483641 /\ new_layout 32 (mkLayout 1 1) 2147483641 = None.
Proof.
  split; [left; reflexivity|]. split; [reflexivity|]. split; [lia|]. split.
  - rewrite (new_layout_closed_form 32 (mkLayout 1 1) 2147483640 (or_introl eq_refl) eq_refl
               ltac:(lia)). reflexivity.
  - split; [lia|].
    rewrite (new_layout_closed_form 32 (mkLayout 1 1) 2147483641 (or_introl eq_refl) eq_refl
               ltac:(lia)). reflexivity.
Defined.

(** ** Fresh allocations *)

Lemma addr_eqb_spec (a b : addr) : addr_eqb a b = true <-> a = b.
Proof.
  split; [|intros ->; apply addr_eqb_refl].
  destruct a as [s | b1 p1], b as [s' | b2 p2]; simpl; try discriminate.
  - destruct s, s'; simpl; congruence.
  - rewrite andb_true_iff, Nat.eqb_eq, Z.eqb_eq. intros [-> ->]. reflexivity.
Qed.

Lemma upd_mem_other {T : Type} (m : addr -> option (Alloc T)) a a' v :
  a <> a' -> upd_mem m a v a' = m a'.
Proof.
  intros Hne. unfold upd_mem.
  destruct (addr_eqb a a') eqn:E; [apply addr_eqb_spec in E; congruence | reflexivity].
Qed.

Lemma write_cell_other {T : Type} (m : addr -> option (Alloc T)) base i v a :
  a <> base -> write_cell m base i v a = m a.
Proof.
  intros Hne. unfold write_cell. destruct (m base); [|reflexivity].
  apply upd_mem_other. congruence.
Qed.

Lemma write_cells_other {T : Type} (vs : list T) : forall m base i a,
  a <> base -> write_cells m base i vs a = m a.
Proof.
  induction vs as [| v vs IH]; intros m base i a Hne; simpl; [reflexivity|].
  rewrite IH by exact Hne. apply write_cell_other. exact Hne.
Qed.

Lemma read_cells_ext {T : Type} (m m' : addr -> option (Alloc T)) a (n : nat) : forall i,
  m a = m' a -> read_cells m a i n = read_cells m' a i n.
Proof.
  induction n as [| n IH]; intros i Ha; simpl; [reflexivity|].
  rewrite <- Ha. destruct (m a) as [al|]; [|reflexivity].
  destruct (a_cells al i); [|reflexivity]. rewrite IH by exact Ha. reflexivity.
Qed.

(** A view reads the memory at its header only. *)
Lemma as_slice_raw_ext {T : Type} pw t (m m' : addr -> option (Alloc T)) a :
  m a = m' a -> as_slice_raw pw t m a = as_slice_raw pw t m' a.
Proof.
  intros Ha. unfold as_slice_raw.
  destruct (data_offset pw t); [|reflexivity].
  assert (Hl : len m a = len m' a) by (destruct a; simpl; [reflexivity | rewrite Ha; reflexivity]).
  rewrite Hl. destruct (len m' a); [|reflexivity]. apply read_cells_ext. exact Ha.
Qed.

(** A view that reads [Some] at an arena address needs memory there. *)
Lemma as_slice_raw_arena {T : Type} pw t (m : addr -> option (Alloc T)) b p xs :
  as_slice_raw pw t m (Arena b p) = Some xs -> m (Arena b p) <> None.
Proof.
  unfold as_slice_raw. simpl. destruct (data_offset pw t); [|discriminate].
  destruct (m (Arena b p)); congruence.
Qed.

Lemma alloc_ptr_ge {T E : Type} (s : St T E) bump layout :
  1 <= align layout -> st_next s bump <= alloc_ptr s bump layout.
Proof.
  intros Ha. unfold alloc_ptr.
  destruct (round_up_bounds (st_next s bump) (align layout) Ha) as [[H _] _].
  unfold round_up in H. exact H.
Qed.

(** The layout [new] allocates holds at least the header. *)
Lemma new_layout_shape pw t len arr layout off :
  valid_pw pw -> ty_wfb pw t = true -> 0 <= len ->
  array pw t len = Some arr ->
  extend pw (header_layout pw) arr = Some (layout, off) ->
  pw / 8 <= size layout /\ pw / 8 <= align layout.
Proof.
  intros Hpw Hwf Hlen Harr Hext.
  destruct (ty_wfb_spec _ _ Hwf) as [Hsz Hal].
  destruct (valid_pw_facts pw Hpw) as (Hhs & _ & _).
  destruct (round_up_bounds (pw / 8) (align t) ltac:(lia)) as [Hb _].
  unfold array in Harr.
  destruct (negb (size t =? 0) && (max_size_for_align pw (align t) / size t <? len));
    [discriminate|].
  injection Harr as <-.
  unfold extend in Hext. simpl align in Hext. simpl size in Hext.
  rewrite (header_rounded_closed pw t Hpw Hwf) in Hext.
  destruct (usize_max pw <? _); [discriminate|].
  destruct (max_size_for_align pw _ <? _); [discriminate|].
  injection Hext as <- <-. simpl. nia.
Qed.

(** [new] with an initialiser that only writes into the region it is
    given allocates a region no allocation used before and changes the
    memory nowhere else. *)
Lemma new_raw_frame pw {T E : Type} empty bump t len (init : ElemPtr -> M T E unit)
    (s : St T E) hdr s' :
  valid_pw pw -> ty_wfb pw t = true -> 0 <= len -> arena_inv s ->
  (forall dst (s0 : St T E) u s1, st_mem s0 (ep_base dst) <> None -> init dst s0 = Ok u s1 ->
     st_next s1 = st_next s0 /\ forall a, a <> ep_base dst -> st_mem s1 a = st_mem s0 a) ->
  new_raw pw empty bump t len init s = Ok hdr s' ->
  arena_inv s' /\ (forall a, a <> hdr -> st_mem s' a = st_mem s a) /\
  (len = 0 -> hdr = empty /\ s' = s) /\
  (len <> 0 -> (exists p, hdr = Arena bump p) /\ st_mem s hdr = None).
Proof.
  intros Hpw Hwf Hlen Hinv Hinit Hrun.
  destruct (Z.eqb_spec len 0) as [->|Hn].
  - unfold new_raw in Hrun. simpl in Hrun. injection Hrun as <- <-.
    split; [exact Hinv|]. split; [reflexivity|]. split; [auto | congruence].
  - destruct (array pw t len) as [arr|] eqn:Harr.
    2:{ unfold new_raw in Hrun. rewrite (proj2 (Z.eqb_neq _ _) Hn), Harr in Hrun. discriminate. }
    destruct (extend pw (header_layout pw) arr) as [[layout off]|] eqn:Hext.
    2:{ unfold new_raw in Hrun. rewrite (proj2 (Z.eqb_neq _ _) Hn), Harr, Hext in Hrun.
        discriminate. }
    destruct (new_layout_shape pw t len arr layout off Hpw Hwf Hlen Harr Hext) as [Hsl Hal].
    destruct (valid_pw_facts pw Hpw) as (Hhs & _ & _).
    destruct (data_offset pw t) eqn:Hd.
    2:{ unfold new_raw in Hrun. rewrite (proj2 (Z.eqb_neq _ _) Hn), Harr, Hext in Hrun.
        unfold bind, data, alloc_layout, write_header in Hrun. rewrite Hd in Hrun.
        cbn [st_mem] in Hrun. rewrite upd_mem_same in Hrun. discriminate. }
    rewrite (new_raw_run pw empty bump t len init s arr layout off Hn Harr Hext) in Hrun
      by congruence.
    pose proof (alloc_ptr_ge s bump layout ltac:(lia)) as Hge.
    pose proof (state_after_header_mem s bump layout len) as Hsm.
    set (ptr := alloc_ptr s bump layout) in *.
    destruct (init (mkElemPtr (Arena bump ptr) 0) (state_after_header s bump layout len))
      as [u s2|msg] eqn:Hi; [|discriminate].
    injection Hrun as <- <-.
    assert (Hne0 : st_mem (state_after_header s bump layout len) (Arena bump ptr) <> None)
      by (rewrite Hsm; discriminate).
    destruct (Hinit (mkElemPtr (Arena bump ptr) 0) _ _ _ Hne0 Hi)
      as [Hnext Hmem]. cbn [ep_base] in Hmem.
    assert (Hfresh : st_mem s (Arena bump ptr) = None).
    { destruct (st_mem s (Arena bump ptr)) eqn:Em; [|reflexivity].
      assert (ptr < st_next s bump) by (apply Hinv; congruence). lia. }
    assert (Hold : forall a, a <> Arena bump ptr -> st_mem s2 a = st_mem s a).
    { intros a Ha. rewrite Hmem by exact Ha. unfold state_after_header. cbn [st_mem].
      fold ptr. rewrite !upd_mem_other by congruence. reflexivity. }
    split; [|split; [exact Hold | split; [congruence | intros _; split; [eauto | exact Hfresh]]]].
    intros b p Hbp. rewrite Hnext. unfold state_after_header. cbn [st_next]. fold ptr.
    destruct (addr_eqb (Arena b p) (Arena bump ptr)) eqn:Eab.
    + apply addr_eqb_spec in Eab. injection Eab as -> ->. rewrite Nat.eqb_refl. lia.
    + assert (Hne : Arena b p <> Arena bump ptr) by (intros Heq; rewrite Heq, addr_eqb_refl in Eab;
                                                   discriminate).
      rewrite Hold in Hbp by exact Hne. specialize (Hinv b p Hbp).
      destruct (Nat.eqb_spec b bump) as [->|]; lia.
Qed.

Lemma frame_keeps_views pw {T E : Type} (s s' : St T E) hdr empty len :
  (forall a, a <> hdr -> st_mem s' a = st_mem s a) ->
  (len = 0 -> hdr = empty /\ s' = s) ->
  (len <> 0 -> (exists b p, hdr = Arena b p) /\ st_mem s hdr = None) ->
  keeps_views pw s s'.
Proof.
  intros Hold Hz Hnz t' a xs Hv.
  destruct (addr_eqb a hdr) eqn:Eah.
  - apply addr_eqb_spec in Eah. subst a.
    destruct (Z.eqb_spec len 0) as [->|Hn].
    + destruct (Hz eq_refl) as [_ ->]. exact Hv.
    + destruct (Hnz Hn) as [(b & p & ->) Hnone].
      exfalso. exact (as_slice_raw_arena _ _ _ _ _ _ Hv Hnone).
  - rewrite (as_slice_raw_ext pw t' (st_mem s') (st_mem s) a); [exact Hv|].
    apply Hold. intros ->. rewrite addr_eqb_refl in Eah. discriminate.
Qed.

Lemma new_raw_fresh pw {T E : Type} empty bump t len (init : ElemPtr -> M T E unit)
    (s : St T E) hdr s' :
  valid_pw pw -> ty_wfb pw t = true -> 0 <= len -> arena_inv s ->
  (forall dst (s0 : St T E) u s1, st_mem s0 (ep_base dst) <> None -> init dst s0 = Ok u s1 ->
     st_next s1 = st_next s0 /\ forall a, a <> ep_base dst -> st_mem s1 a = st_mem s0 a) ->
  new_raw pw empty bump t len init s = Ok hdr s' ->
  arena_inv s' /\ keeps_views pw s s' /\ (len <> 0 -> st_mem s hdr = None).
Proof.
  intros Hpw Hwf Hlen Hinv Hinit Hrun.
  destruct (new_raw_frame pw empty bump t len init s hdr s' Hpw Hwf Hlen Hinv Hinit Hrun)
    as (Hinv' & Hold & Hz & Hnz).
  split; [exact Hinv'|]. split.
  - apply (frame_keeps_views pw s s' hdr empty len Hold Hz).
    intros Hn. destruct (Hnz Hn) as [[p ->] Hf]. split; [eauto | exact Hf].
  - intros Hn. exact (proj2 (Hnz Hn)).
Qed.

Lemma writes_init_frame {T E : Type} (init : ElemPtr -> M T E unit) (vs : list T) :
  (forall dst (s0 : St T E), st_mem s0 (ep_base dst) <> None ->
     init dst s0 = Ok tt (set_mem s0 (write_cells (st_mem s0) (ep_base dst) (ep_index dst) vs))) ->
  forall dst (s0 : St T E) u s1, st_mem s0 (ep_base dst) <> None -> init dst s0 = Ok u s1 ->
    st_next s1 = st_next s0 /\ forall a, a <> ep_base dst -> st_mem s1 a = st_mem s0 a.
Proof.
  intros Hw dst s0 u s1 Hs Hi. rewrite (Hw dst s0 Hs) in Hi. injection Hi as _ <-.
  split; [reflexivity|]. intros a Ha. apply write_cells_other. exact Ha.
Qed.

Lemma steps_init_frame {T E : Type} len (step : Z -> E -> option (T * E)) msg
    (f : Z -> M T E T) :
  (forall j s0, f j s0 = env_step step msg j s0) ->
  forall dst (s0 : St T E) u s1, st_mem s0 (ep_base dst) <> None ->
    from_fn_init len f dst s0 = Ok u s1 ->
    st_next s1 = st_next s0 /\ forall a, a <> ep_base dst -> st_mem s1 a = st_mem s0 a.
Proof.
  intros Hf dst s0 u s1 Hs Hi. unfold from_fn_init in Hi.
  rewrite (for_range_steps step msg f dst Hf _ 0 s0 Hs) in Hi.
  destruct (run_steps step 0 (Z.to_nat len) (st_env s0)) as [[vs e']|]; [|discriminate].
  injection Hi as _ <-. split; [reflexivity|]. intros a Ha. apply write_cells_other. exact Ha.
Qed.

Lemma new_raw_ok_fits pw {T E : Type} empty bump t len (init : ElemPtr -> M T E unit)
    (s : St T E) hdr s' :
  len <> 0 -> new_raw pw empty bump t len init s = Ok hdr s' -> layout_fits pw t len = true.
Proof.
  intros Hn Hrun. unfold new_raw in Hrun. rewrite (proj2 (Z.eqb_neq _ _) Hn) in Hrun.
  unfold layout_fits, new_layout. rewrite (proj2 (Z.eqb_neq _ _) Hn). simpl.
  destruct (array pw t len) as [arr|]; [|discriminate].
  destruct (extend pw (header_layout pw) arr) as [[layout off]|]; [|discriminate].
  unfold bind, data, alloc_layout, write_header in Hrun.
  destruct (data_offset pw t); [reflexivity|].
  cbn [st_mem] in Hrun. rewrite upd_mem_same in Hrun. discriminate.
Qed.

Lemma arena_inv_init {T E : Type} (e : E) : arena_inv (init_st (T := T) e).
Proof. intros b p H. exfalso. apply H. reflexivity. Qed.

(** ** The fill helpers of [BumpaloThinSliceExt] *)

Lemma run_steps_const {T E : Type} (v : T) (n : nat) : forall i (e : E),
  run_steps (fun _ e => Some (v, e)) i n e = Some (repeat v n, e).
Proof.
  induction n as [| n IH]; intros i e; simpl; [reflexivity|]. rewrite IH. reflexivity.
Qed.

Lemma ret_env_step {T E : Type} (v : T) msg :
  forall j (s0 : St T E), ret v s0 = env_step (fun _ e => Some (v, e)) msg j s0.
Proof. intros j [n m e]. reflexivity. Qed.

Lemma ThinSlice_from_fn_steps pw {T E : Type} bump t len (step : Z -> E -> option (T * E)) msg
    (f : Z -> M T E T) (s : St T E) vs e' :
  (forall j s0, f j s0 = env_step step msg j s0) ->
  0 <= len -> layout_fits pw t len = true ->
  run_steps step 0 (Z.to_nat len) (st_env s) = Some (vs, e') ->
  exists h s', ThinSlice.from_fn pw bump t len f s = Ok h s' /\
    ThinSlice.as_slice pw t (st_mem s') h = Some vs /\ st_env s' = e'.
Proof.
  intros Hf Hlen Hfit Hrun.
  destruct (new_raw_steps pw lib_ThinSlice_EMPTY bump t len step msg f s vs e' Hf Hlen Hfit Hrun)
    as (hdr & s' & Heq & Hv & He).
  exists (ThinSlice.mk hdr), s'. unfold ThinSlice.from_fn, ThinSlice.new, bind. simpl.
  rewrite Heq. auto.
Qed.

(** X6: [alloc_thin_slice_fill_copy], [alloc_thin_slice_fill_clone] and
    [alloc_thin_slice_fill_default], for a length whose layout fits, return
    a slice holding [len] times the value (its clone, [T::default()]), and
    leave the environment as it was. *)
Theorem fill_helpers_repeat_one_value :
  forall pw (T E : Type) `{Clone T} `{Default T} bump t len (value : T) (s : St T E),
    0 <= len -> layout_fits pw t len = true ->
    (exists h s', alloc_thin_slice_fill_copy pw bump t len value s = Ok h s' /\
       ThinSlice.as_slice pw t (st_mem s') h = Some (repeat value (Z.to_nat len)) /\
       st_env s' = st_env s) /\
    (exists h s', alloc_thin_slice_fill_clone pw bump t len value s = Ok h s' /\
       ThinSlice.as_slice pw t (st_mem s') h = Some (repeat (clone value) (Z.to_nat len)) /\
       st_env s' = st_env s) /\
    (exists h s', alloc_thin_slice_fill_default pw bump t len s = Ok h s' /\
       ThinSlice.as_slice pw t (st_mem s') h = Some (repeat Default_default (Z.to_nat len)) /\
       st_env s' = st_env s).
Proof.
  intros pw T E HC HD bump t len value s Hlen Hfit.
  split; [|split];
    apply (ThinSlice_from_fn_steps pw bump t len _ "" _ s _ _ (ret_env_step _ "") Hlen Hfit
             (run_steps_const _ _ 0 (st_env s))).
Qed.

Lemma fill_helpers_repeat_one_value_witness :
  0 <= 3 /\ layout_fits 64 layout_i32 3 = true /\
  exists h s', alloc_thin_slice_fill_copy 64 0 layout_i32 3 7 (init_st (T := Z) tt) = Ok h s' /\
    ThinSlice.as_slice 64 layout_i32 (st_mem s') h = Some [7; 7; 7] /\ st_env s' = tt.
Proof.
  split; [lia|]. split; [reflexivity|].
  exact (proj1 (@fill_helpers_repeat_one_value 64 Z unit _ _ 0 layout_i32 3 7 (init_st tt)
                  ltac:(lia) eq_refl)).
Defined.

(** X7: [alloc_thin_slice_fill_iter] over the range [a..b] (with [a <= b]
    and a layout that fits [b - a] elements) returns the slice
    [a, a+1, ..., b-1] and leaves the range exhausted. *)
Theorem fill_iter_range_view :
  forall pw bump t a b (s : St Z Range),
    a <= b -> layout_fits pw t (b - a) = true ->
    exists h s', alloc_thin_slice_fill_iter pw bump t (mkRange a b) s = Ok h s' /\
      ThinSlice.as_slice pw t (st_mem s') h = Some (zseq a (Z.to_nat (b - a))) /\
      st_env s' = mkRange b b.
Proof.
  intros pw bump t a b s Hab Hfit.
  assert (Hl : ExactSizeIterator_len (mkRange a b) = b - a) by (simpl; lia).
  destruct (fill_iter_run pw bump t (mkRange a b) s (zseq a (Z.to_nat (b - a))) (mkRange b b))
    as (h & s' & Hrun & Hv & He & _).
  - rewrite Hl. lia.
  - rewrite Hl. exact Hfit.
  - rewrite Hl, iter_take_range by lia. repeat f_equal. lia.
  - exists h, s'. auto.
Qed.

Lemma fill_iter_range_view_witness :
  5 <= 9 /\ layout_fits 64 layout_u64 (9 - 5) = true /\
  exists h s', alloc_thin_slice_fill_iter 64 0 layout_u64 (mkRange 5 9) (init_st (mkRange 0 0))
                 = Ok h s' /\
    ThinSlice.as_slice 64 layout_u64 (st_mem s') h = Some [5; 6; 7; 8] /\
    st_env s' = mkRange 9 9.
Proof.
  split; [lia|]. split; [reflexivity|].
  exact (fill_iter_range_view 64 0 layout_u64 5 9 (init_st (mkRange 0 0)) ltac:(lia) eq_refl).
Defined.

(** ** Indexed stores through [as_mut_slice] *)

Lemma read_cells_length {T : Type} (m : addr -> option (Alloc T)) a (n : nat) :
  forall i xs, read_cells m a i n = Some xs -> length xs = n.
Proof.
  induction n as [| n IH]; intros i xs Hr; cbn [read_cells] in Hr.
  - injection Hr as <-. reflexivity.
  - destruct (m a) as [al|]; [|discriminate].
    destruct (a_cells al i) as [x|]; [|discriminate].
    destruct (read_cells m a (i + 1) n) as [ys|] eqn:Hr'; [|discriminate].
    injection Hr as <-. simpl. f_equal. exact (IH _ _ Hr').
Qed.

Lemma read_cells_write_below {T : Type} (m : addr -> option (Alloc T)) a al i v (n : nat) :
  m a = Some al ->
  forall j xs, i < j -> read_cells m a j n = Some xs ->
    read_cells (write_cell m a i v) a j n = Some xs.
Proof.
  intros Hm. induction n as [| n IH]; intros j xs Hij Hr; cbn [read_cells] in Hr |- *;
    [exact Hr|].
  rewrite (write_cell_at m a i v al Hm). rewrite Hm in Hr. cbn [a_cells].
  destruct (Z.eqb_spec j i) as [->|_]; [lia|].
  destruct (a_cells al j) as [x|]; [|discriminate].
  destruct (read_cells m a (j + 1) n) as [ys|] eqn:Hr'; [|discriminate].
  rewrite (IH (j + 1) ys ltac:(lia) Hr'). exact Hr.
Qed.

Lemma read_cells_write_cell {T : Type} (m : addr -> option (Alloc T)) a al i v (n : nat) :
  m a = Some al ->
  forall j xs, j <= i -> read_cells m a j n = Some xs ->
    read_cells (write_cell m a i v) a j n = Some (replace_nth xs (Z.to_nat (i - j)) v).
Proof.
  intros Hm. induction n as [| n IH]; intros j xs Hij Hr; cbn [read_cells] in Hr |- *.
  - injection Hr as <-. reflexivity.
  - rewrite (write_cell_at m a i v al Hm). rewrite Hm in Hr. cbn [a_cells].
    destruct (a_cells al j) as [x|]; [|discriminate].
    destruct (read_cells m a (j + 1) n) as [ys|] eqn:Hr'; [|discriminate].
    injection Hr as <-.
    destruct (Z.eqb_spec j i) as [->|Hji].
    + rewrite (read_cells_write_below m a al i v n Hm (i + 1) ys ltac:(lia) Hr').
      rewrite Z.sub_diag. reflexivity.
    + rewrite (IH (j + 1) ys ltac:(lia) Hr').
      replace (Z.to_nat (i - j)) with (S (Z.to_nat (i - (j + 1)))) by lia. reflexivity.
Qed.

(** [slice[i] = v] on a readable view: in bounds it writes the one cell,
    out of bounds it panics. *)
Lemma slice_store_spec pw {T E : Type} t hdr i (v : T) (s : St T E) xs :
  as_slice_raw pw t (st_mem s) hdr = Some xs ->
  (0 <= i < Z.of_nat (length xs) ->
     slice_store pw t hdr i v s = Ok tt (set_mem s (write_cell (st_mem s) hdr i v)) /\
     as_slice_raw pw t (write_cell (st_mem s) hdr i v) hdr = Some (replace_nth xs (Z.to_nat i) v)) /\
  (Z.of_nat (length xs) <= i -> slice_store pw t hdr i v s = Panic "index out of bounds").
Proof.
  intros Hv. unfold as_slice_raw in Hv |- *. unfold slice_store, data, bind, ret.
  destruct (data_offset pw t) as [o|]; [|discriminate].
  destruct (len (st_mem s) hdr) as [n|] eqn:Hlen; [|discriminate].
  pose proof (read_cells_length _ _ _ _ _ Hv) as Hl.
  split.
  - intros Hi. destruct (Z.ltb_spec i n) as [Hin|]; [|lia].
    destruct hdr as [si | b p].
    + cbn [len] in Hlen. injection Hlen as <-. simpl in Hl. lia.
    + cbn [len] in Hlen. destruct (st_mem s (Arena b p)) as [al|] eqn:Hm; [|discriminate].
      unfold write, ptr_add. cbn [ep_base ep_index]. rewrite Hm.
      replace (0 + i) with i by lia. split; [reflexivity|].
      cbn [len]. rewrite (write_cell_at _ _ _ _ _ Hm). cbn [a_header]. rewrite Hlen.
      pose proof (read_cells_write_cell (st_mem s) (Arena b p) al i v (Z.to_nat n) Hm 0 xs
                    ltac:(lia) Hv) as Hw.
      rewrite Z.sub_0_r in Hw. exact Hw.
  - intros Hi. destruct (Z.ltb_spec i n); [lia|]. reflexivity.
Qed.

(** X8: [as_mut_slice()[i] = v] on a [ThinSlice] or [ThinSliceMut] whose
    view is [xs]: for [i < len] it replaces the [i]-th element of the view
    (also seen through [into_thin_slice]) and changes no other
    allocation, the arenas or the environment; for [i >= len] it panics
    with "index out of bounds". *)
Theorem as_mut_slice_store_sets_one_element :
  forall pw (T E : Type) t i (v : T) (s : St T E) xs,
    (forall h : ThinSlice.ThinSlice, ThinSlice.as_slice pw t (st_mem s) h = Some xs ->
       (0 <= i < Z.of_nat (length xs) ->
          exists s', ThinSlice.as_mut_slice_store pw t h i v s = Ok tt s' /\
            ThinSlice.as_slice pw t (st_mem s') h = Some (replace_nth xs (Z.to_nat i) v) /\
            (forall a, a <> ThinSlice.header h -> st_mem s' a = st_mem s a) /\
            st_next s' = st_next s /\ st_env s' = st_env s) /\
       (Z.of_nat (length xs) <= i ->
          ThinSlice.as_mut_slice_store pw t h i v s = Panic "index out of bounds")) /\
    (forall h : ThinSliceMut.ThinSliceMut, ThinSliceMut.as_slice pw t (st_mem s) h = Some xs ->
       (0 <= i < Z.of_nat (length xs) ->
          exists s', ThinSliceMut.as_mut_slice_store pw t h i v s = Ok tt s' /\
            thin_slice.as_slice pw t (st_mem s') (ThinSliceMut.into_thin_slice h) =
              Some (replace_nth xs (Z.to_nat i) v) /\
            (forall a, a <> ThinSliceMut.header h -> st_mem s' a = st_mem s a) /\
            st_next s' = st_next s /\ st_env s' = st_env s) /\
       (Z.of_nat (length xs) <= i ->
          ThinSliceMut.as_mut_slice_store pw t h i v s = Panic "index out of bounds")).
Proof.
  intros pw T E t i v s xs. split.
  - intros [hdr] Hv. destruct (slice_store_spec pw t hdr i v s xs Hv) as [Hin Hout].
    split; [|exact Hout].
    intros Hi. destruct (Hin Hi) as [Hrun Hview].
    exists (set_mem s (write_cell (st_mem s) hdr i v)).
    split; [exact Hrun|]. split; [exact Hview|].
    split; [|split; reflexivity]. intros a Ha. apply write_cell_other. exact Ha.
  - intros [hdr] Hv. destruct (slice_store_spec pw t hdr i v s xs Hv) as [Hin Hout].
    split; [|exact Hout].
    intros Hi. destruct (Hin Hi) as [Hrun Hview].
    exists (set_mem s (write_cell (st_mem s) hdr i v)).
    split; [exact Hrun|]. split; [exact Hview|].
    split; [|split; reflexivity]. intros a Ha. apply write_cell_other. exact Ha.
Qed.

Lemma as_mut_slice_store_sets_one_element_witness :
  exists h s1 s2,
    ThinSlice.new_copy 64 0 layout_i32 [1; 2; 3] (init_st (E := unit) tt) = Ok h s1 /\
    ThinSlice.as_slice 64 layout_i32 (st_mem s1) h = Some [1; 2; 3] /\
    ThinSlice.as_mut_slice_store 64 layout_i32 h 1 9 s1 = Ok tt s2 /\
    ThinSlice.as_slice 64 layout_i32 (st_mem s2) h = Some [1; 9; 3] /\
    ThinSlice.as_mut_slice_store 64 layout_i32 h 3 9 s1 = Panic "index out of bounds".
Proof.
  destruct (ThinSlice.new_copy 64 0 layout_i32 [1; 2; 3] (init_st (E := unit) tt)) as [h s1|m]
    eqn:R; [|discriminate].
  assert (Hv : ThinSlice.as_slice 64 layout_i32 (st_mem s1) h = Some [1; 2; 3])
    by (injection R as <- <-; reflexivity).
  destruct (proj1 (as_mut_slice_store_sets_one_element 64 Z unit layout_i32 1 9 s1 [1; 2; 3]) h Hv)
    as [Hin _].
  destruct (Hin ltac:(simpl; lia)) as (s2 & Hrun & Hview & _).
  exists h, s1, s2. split; [reflexivity|]. split; [exact Hv|]. split; [exact Hrun|].
  split; [exact Hview|].
  exact (proj2 (proj1 (as_mut_slice_store_sets_one_element 64 Z unit layout_i32 3 9 s1 [1; 2; 3])
                  h Hv) ltac:(simpl; lia)).
Defined.

(** ** [new_uninit], stores and [assume_init] *)

Lemma store_all_spec pw {T E : Type} t b p n (vs : list T) :
  data_offset pw t <> None ->
  forall i (s : St T E) al, st_mem s (Arena b p) = Some al -> a_header al = Some n ->
    0 <= i -> i + Z.of_nat (length vs) <= n ->
    store_all pw t (ThinSlice.mk (Arena b p)) i vs s =
      Ok tt (set_mem s (write_cells (st_mem s) (Arena b p) i vs)).
Proof.
  intros Hd. induction vs as [| v vs IH]; intros i s al Hm Hh Hi Hn.
  - destruct s; reflexivity.
  - cbn [store_all]. unfold bind at 1, ThinSlice.as_mut_slice_store, slice_store, data, bind, ret.
    destruct (data_offset pw t); [|congruence].
    cbn [ThinSlice.header len]. rewrite Hm, Hh.
    simpl length in Hn. destruct (Z.ltb_spec i n); [|lia].
    unfold write, ptr_add. cbn [ep_base ep_index]. rewrite Hm. replace (0 + i) with i by lia.
    rewrite (IH (i + 1) (set_mem s (write_cell (st_mem s) (Arena b p) i v)) _
               (write_cell_at (st_mem s) (Arena b p) i v al Hm)); try lia;
      [reflexivity | exact Hh].
Qed.

(** X10: a [ThinSlice<MaybeUninit<T>>] from [new_uninit], every element of
    which is then stored through [as_mut_slice], reads after
    [assume_init] as the values stored, in order. *)
Theorem new_uninit_store_all_assume_init :
  forall pw (T E : Type) bump t (vs : list T) (s : St T E),
    layout_fits pw t (Z.of_nat (length vs)) = true ->
    exists h s1 s2,
      ThinSlice.new_uninit pw bump t (Z.of_nat (length vs)) s = Ok h s1 /\
      store_all pw t h 0 vs s1 = Ok tt s2 /\
      ThinSlice.as_slice pw t (st_mem s2) (ThinSlice.assume_init h) = Some vs.
Proof.
  intros pw T E bump t vs s Hfit. pose proof (layout_fits_data _ _ _ Hfit) as Hd.
  destruct vs as [| v vs'] eqn:Hvs.
  - exists ThinSlice.default, s, s. split; [reflexivity|]. split; [destruct s; reflexivity|].
    apply as_slice_raw_static. exact Hd.
  - rewrite <- Hvs in *.
    assert (Hn : Z.of_nat (length vs) <> 0) by (subst vs; simpl; lia).
    destruct (layout_fits_nonzero _ _ _ Hfit Hn) as (arr & layout & off & Harr & Hext).
    unfold ThinSlice.new_uninit, ThinSlice.new, bind.
    rewrite (new_raw_run pw _ bump t _ new_uninit_init s arr layout off Hn Harr Hext Hd).
    unfold new_uninit_init, ret.
    set (s1 := state_after_header s bump layout (Z.of_nat (length vs))).
    set (p := alloc_ptr s bump layout).
    eexists _, s1, _. split; [reflexivity|].
    rewrite (store_all_spec pw t bump p (Z.of_nat (length vs)) vs Hd 0 s1 _
               (state_after_header_mem s bump layout _) eq_refl ltac:(lia) ltac:(lia)).
    split; [reflexivity|].
    apply (write_cells_view _ _ _ _ _ _ (fun _ => None)); [exact Hd|].
    apply state_after_header_mem.
Qed.

Lemma new_uninit_store_all_assume_init_witness :
  layout_fits 64 layout_u64 (Z.of_nat (length [4; 5; 6])) = true /\
  exists h s1 s2,
    ThinSlice.new_uninit 64 0 layout_u64 3 (init_st (E := unit) tt) = Ok h s1 /\
    store_all 64 layout_u64 h 0 [4; 5; 6] s1 = Ok tt s2 /\
    ThinSlice.as_slice 64 layout_u64 (st_mem s2) (ThinSlice.assume_init h) = Some [4; 5; 6].
Proof.
  split; [reflexivity|].
  exact (new_uninit_store_all_assume_init 64 Z unit 0 layout_u64 [4; 5; 6] (init_st tt) eq_refl).
Defined.

(** ** [PartialOrd] and [Ord] *)

Lemma slice_cmp_from_len {T : Type} `{Ord T} (xs : list T) : forall ys lx ly lx' ly',
  usize_cmp lx ly = usize_cmp lx' ly' -> slice_cmp_from xs ys lx ly = slice_cmp_from xs ys lx' ly'.
Proof.
  induction xs as [| x xs IH]; intros [| y ys] lx ly lx' ly' Hu; simpl; try exact Hu.
  destruct (Ord_cmp x y); auto.
Qed.

Lemma slice_cmp_cons {T : Type} `{Ord T} (x y : T) xs ys :
  slice_cmp (x :: xs) (y :: ys) = match Ord_cmp x y with Equal => slice_cmp xs ys | o => o end.
Proof.
  unfold slice_cmp. simpl. destruct (Ord_cmp x y); auto. apply slice_cmp_from_len. reflexivity.
Qed.

Lemma slice_cmp_reverse {T : Type} `{Ord T}
    (Hrev : forall x y : T, Ord_cmp y x = Ordering_reverse (Ord_cmp x y)) (xs : list T) :
  forall ys, slice_cmp ys xs = Ordering_reverse (slice_cmp xs ys).
Proof.
  induction xs as [| x xs IH]; intros [| y ys]; try reflexivity.
  rewrite !slice_cmp_cons, Hrev. destruct (Ord_cmp x y); simpl; auto.
Qed.

Lemma slice_cmp_equal_iff {T : Type} `{Ord T}
    (Heq : forall x y : T, Ord_cmp x y = Equal <-> x = y) (xs : list T) :
  forall ys, slice_cmp xs ys = Equal <-> xs = ys.
Proof.
  induction xs as [| x xs IH]; intros [| y ys];
    try (split; [discriminate | congruence]); [split; reflexivity|].
  rewrite slice_cmp_cons. destruct (Ord_cmp x y) eqn:Hc.
  - split; [discriminate|]. intros Hxy. injection Hxy as -> _.
    assert (Hr : Ord_cmp y y = Equal) by (apply Heq; reflexivity). congruence.
  - rewrite IH. apply Heq in Hc. subst y. split; [intros ->; reflexivity | congruence].
  - split; [discriminate|]. intros Hxy. injection Hxy as -> _.
    assert (Hr : Ord_cmp y y = Equal) by (apply Heq; reflexivity). congruence.
Qed.

Lemma slice_eq_cmp {T : Type} `{PartialEq T} `{Ord T}
    (Hcons : forall x y : T, PartialEq_eq x y = true <-> Ord_cmp x y = Equal) (xs : list T) :
  forall ys, slice_eq xs ys = true <-> slice_cmp xs ys = Equal.
Proof.
  induction xs as [| x xs IH]; intros [| y ys];
    try (split; discriminate); [split; reflexivity|].
  assert (Hs : slice_eq (x :: xs) (y :: ys) = PartialEq_eq x y && slice_eq xs ys).
  { unfold slice_eq. simpl. destruct (PartialEq_eq x y), (Nat.eqb (length xs) (length ys));
      reflexivity. }
  rewrite Hs, andb_true_iff, IH, Hcons, slice_cmp_cons.
  destruct (Ord_cmp x y); split; try (intros [? ?]; congruence); try discriminate.
  - intros Hc. split; [reflexivity | exact Hc].
Qed.

Lemma slice_cmp_prefix {T : Type} `{Ord T} (Hrefl : forall x : T, Ord_cmp x x = Equal)
    (xs : list T) : forall z zs, slice_cmp xs (xs ++ z :: zs) = Less.
Proof.
  induction xs as [| x xs IH]; intros z zs; [reflexivity|].
  simpl. rewrite slice_cmp_cons, Hrefl. apply IH.
Qed.

Lemma slice_cmp_less_trans {T : Type} `{Ord T}
    (Heq : forall x y : T, Ord_cmp x y = Equal -> x = y)
    (Htrans : forall x y z : T, Ord_cmp x y = Less -> Ord_cmp y z = Less -> Ord_cmp x z = Less)
    (xs : list T) :
  forall ys zs, slice_cmp xs ys = Less -> slice_cmp ys zs = Less -> slice_cmp xs zs = Less.
Proof.
  induction xs as [| x xs IH]; intros ys zs H1 H2.
  - destruct ys as [| y ys]; [discriminate|]. destruct zs as [| z zs]; [discriminate|].
    reflexivity.
  - destruct ys as [| y ys]; [discriminate|]. destruct zs as [| z zs]; [discriminate|].
    rewrite slice_cmp_cons in H1, H2 |- *.
    destruct (Ord_cmp x y) eqn:Hxy; try discriminate;
      destruct (Ord_cmp y z) eqn:Hyz; try discriminate.
    + rewrite (Htrans x y z Hxy Hyz). reflexivity.
    + apply Heq in Hyz. subst z. rewrite Hxy. reflexivity.
    + apply Heq in Hxy. subst y. rewrite Hyz. reflexivity.
    + pose proof (Heq x y Hxy) as Exy. pose proof (Heq y z Hyz) as Eyz. subst y z.
      rewrite Hxy. exact (IH _ _ H1 H2).
Qed.

Lemma slice_partial_cmp_total {T : Type} `{Ord T} `{PartialOrd T}
    (Hagree : forall x y : T, PartialOrd_partial_cmp x y = Some (Ord_cmp x y)) (xs : list T) :
  forall ys lx ly, slice_partial_cmp_from xs ys lx ly = Some (slice_cmp_from xs ys lx ly).
Proof.
  induction xs as [| x xs IH]; intros [| y ys] lx ly; try reflexivity.
  simpl. rewrite Hagree. destruct (Ord_cmp x y); auto.
Qed.

(** X11: for an element type whose [cmp] is antisymmetric ([y.cmp(x)] is
    [x.cmp(y).reverse()]), so is [ThinSlice::cmp]: comparing two handles the
    other way round gives the reversed ordering. *)
Theorem cmp_antisymmetric :
  forall pw (T : Type) `{Ord T} t (m : addr -> option (Alloc T)) (a b : ThinSlice.ThinSlice),
    (forall x y : T, Ord_cmp y x = Ordering_reverse (Ord_cmp x y)) ->
    ThinSlice.cmp pw t m b a = option_map Ordering_reverse (ThinSlice.cmp pw t m a b).
Proof.
  intros pw T ? t m a b Hrev. unfold ThinSlice.cmp.
  destruct (ThinSlice.as_slice pw t m a) as [xs|], (ThinSlice.as_slice pw t m b) as [ys|];
    try reflexivity.
  simpl. f_equal. apply slice_cmp_reverse. exact Hrev.
Qed.

(** X12: for an element type whose [==] agrees with [cmp] returning
    [Equal] (the contract of [Ord]), two handles are [==] exactly when
    [cmp] returns [Equal]; for an element type whose [cmp] returns
    [Equal] exactly on equal elements, that is exactly when their views
    are equal. *)
Theorem eq_iff_cmp_equal :
  forall pw (T : Type) `{PartialEq T} `{Ord T} t (m : addr -> option (Alloc T))
         (a b : ThinSlice.ThinSlice) xs ys,
    ThinSlice.as_slice pw t m a = Some xs -> ThinSlice.as_slice pw t m b = Some ys ->
    ((forall x y : T, PartialEq_eq x y = true <-> Ord_cmp x y = Equal) ->
     (ThinSlice.eq pw t m a b = Some true <-> ThinSlice.cmp pw t m a b = Some Equal)) /\
    ((forall x y : T, Ord_cmp x y = Equal <-> x = y) ->
     (ThinSlice.cmp pw t m a b = Some Equal <-> xs = ys)).
Proof.
  intros pw T ? ? t m a b xs ys Ha Hb. unfold ThinSlice.eq, ThinSlice.cmp. rewrite Ha, Hb.
  split.
  - intros Hcons. pose proof (slice_eq_cmp Hcons xs ys) as Hi.
    split; intros Hs; injection Hs as Hs; f_equal; apply Hi; exact Hs.
  - intros Heq. rewrite <- (slice_cmp_equal_iff Heq xs ys).
    split; [intros Hs; injection Hs as Hs; exact Hs | intros ->; reflexivity].
Qed.

(** X13: for an element type whose [cmp] is reflexive, a handle whose view
    is a proper prefix of another handle's view compares [Less]; in
    particular an empty handle is below every non-empty one. *)
Theorem cmp_proper_prefix_less :
  forall pw (T : Type) `{Ord T} t (m : addr -> option (Alloc T)) (a b : ThinSlice.ThinSlice)
         xs z zs,
    (forall x : T, Ord_cmp x x = Equal) ->
    ThinSlice.as_slice pw t m a = Some xs -> ThinSlice.as_slice pw t m b = Some (xs ++ z :: zs) ->
    ThinSlice.cmp pw t m a b = Some Less.
Proof.
  intros pw T ? t m a b xs z zs Hrefl Ha Hb. unfold ThinSlice.cmp. rewrite Ha, Hb.
  f_equal. apply slice_cmp_prefix. exact Hrefl.
Qed.

(** X14: for an element type whose [cmp] returns [Equal] only on equal elements
    and whose [Less] is transitive, [ThinSlice::cmp]'s [Less] is
    transitive. *)
Theorem cmp_less_transitive :
  forall pw (T : Type) `{Ord T} t (m : addr -> option (Alloc T)) (a b c : ThinSlice.ThinSlice),
    (forall x y : T, Ord_cmp x y = Equal -> x = y) ->
    (forall x y z : T, Ord_cmp x y = Less -> Ord_cmp y z = Less -> Ord_cmp x z = Less) ->
    ThinSlice.cmp pw t m a b = Some Less -> ThinSlice.cmp pw t m b c = Some Less ->
    ThinSlice.cmp pw t m a c = Some Less.
Proof.
  intros pw T ? t m a b c Heq Htrans H1 H2. unfold ThinSlice.cmp in *.
  destruct (ThinSlice.as_slice pw t m a) as [xs|]; [|discriminate].
  destruct (ThinSlice.as_slice pw t m b) as [ys|]; [|discriminate].
  destruct (ThinSlice.as_slice pw t m c) as [zs|]; [|discriminate].
  injection H1 as H1. injection H2 as H2. f_equal.
  exact (slice_cmp_less_trans Heq Htrans xs ys zs H1 H2).
Qed.

(** X15: for an element type whose [partial_cmp] is [Some(cmp)], the
    [PartialOrd] of [ThinSlice] is [Some] of its [Ord]: it never returns
    [None] on readable handles and agrees with [cmp]. *)
Theorem partial_cmp_is_some_cmp :
  forall pw (T : Type) `{Ord T} `{PartialOrd T} t (m : addr -> option (Alloc T))
         (a b : ThinSlice.ThinSlice),
    (forall x y : T, PartialOrd_partial_cmp x y = Some (Ord_cmp x y)) ->
    ThinSlice.partial_cmp pw t m a b = option_map Some (ThinSlice.cmp pw t m a b).
Proof.
  intros pw T ? ? t m a b Hagree. unfold ThinSlice.partial_cmp, ThinSlice.cmp.
  destruct (ThinSlice.as_slice pw t m a) as [xs|], (ThinSlice.as_slice pw t m b) as [ys|];
    try reflexivity.
  simpl. f_equal. apply slice_partial_cmp_total. exact Hagree.
Qed.

Lemma Z_Ord_reverse : forall x y : Z, Ord_cmp y x = Ordering_reverse (Ord_cmp x y).
Proof.
  intros x y. unfold Ord_cmp, Z_Ord.
  destruct (Z.compare_spec x y) as [->|Hl|Hg].
  - rewrite Z.compare_refl. reflexivity.
  - rewrite (proj2 (Z.compare_gt_iff y x) Hl). reflexivity.
  - rewrite (proj2 (Z.compare_lt_iff y x) Hg). reflexivity.
Qed.

Lemma Z_Ord_equal : forall x y : Z, Ord_cmp x y = Equal <-> x = y.
Proof.
  intros x y. unfold Ord_cmp, Z_Ord. rewrite <- Z.compare_eq_iff.
  destruct (x ?= y); split; congruence.
Qed.

Lemma Z_Ord_refl : forall x : Z, Ord_cmp x x = Equal.
Proof. intros x. apply Z_Ord_equal. reflexivity. Qed.

Lemma Z_Ord_less : forall x y : Z, Ord_cmp x y = Less <-> x < y.
Proof.
  intros x y. unfold Ord_cmp, Z_Ord. rewrite <- Z.compare_lt_iff.
  destruct (x ?= y); split; congruence.
Qed.

Lemma Z_Ord_trans : forall x y z : Z, Ord_cmp x y = Less -> Ord_cmp y z = Less -> Ord_cmp x z = Less.
Proof. intros x y z. rewrite !Z_Ord_less. lia. Qed.

Lemma Z_eq_cmp : forall x y : Z, PartialEq_eq x y = true <-> Ord_cmp x y = Equal.
Proof. intros x y. rewrite Z_Ord_equal. apply Z.eqb_eq. Qed.

Lemma cmp_antisymmetric_witness :
  let m := fun a : addr =>
    if addr_eqb a (Arena 0 4096) then Some (mkAlloc (Some 2) (fun i => nth_error [1; 2] (Z.to_nat i)))
    else if addr_eqb a (Arena 0 8192) then Some (mkAlloc (Some 3) (fun i => nth_error [1; 2; 3] (Z.to_nat i)))
    else None in
  (forall x y : Z, Ord_cmp y x = Ordering_reverse (Ord_cmp x y)) /\
  ThinSlice.cmp 64 layout_i32 m (ThinSlice.mk (Arena 0 4096)) (ThinSlice.mk (Arena 0 8192)) = Some Less /\
  ThinSlice.cmp 64 layout_i32 m (ThinSlice.mk (Arena 0 8192)) (ThinSlice.mk (Arena 0 4096)) = Some Greater.
Proof.
  intros m. split; [exact Z_Ord_reverse|].
  assert (Hab : ThinSlice.cmp 64 layout_i32 m (ThinSlice.mk (Arena 0 4096)) (ThinSlice.mk (Arena 0 8192))
                = Some Less) by reflexivity.
  split; [exact Hab|].
  rewrite (@cmp_antisymmetric 64 Z _ layout_i32 m _ _ Z_Ord_reverse), Hab. reflexivity.
Defined.

Lemma eq_iff_cmp_equal_witness :
  let m := fun a : addr =>
    if addr_eqb a (Arena 0 4096) then Some (mkAlloc (Some 2) (fun i => nth_error [1; 2] (Z.to_nat i)))
    else if addr_eqb a (Arena 1 4096) then Some (mkAlloc (Some 2) (fun i => nth_error [1; 2] (Z.to_nat i)))
    else None in
  ThinSlice.as_slice 64 layout_i32 m (ThinSlice.mk (Arena 0 4096)) = Some [1; 2] /\
  ThinSlice.as_slice 64 layout_i32 m (ThinSlice.mk (Arena 1 4096)) = Some [1; 2] /\
  (forall x y : Z, PartialEq_eq x y = true <-> Ord_cmp x y = Equal) /\
  (forall x y : Z, Ord_cmp x y = Equal <-> x = y) /\
  ThinSlice.cmp 64 layout_i32 m (ThinSlice.mk (Arena 0 4096)) (ThinSlice.mk (Arena 1 4096)) = Some Equal /\
  ThinSlice.eq 64 layout_i32 m (ThinSlice.mk (Arena 0 4096)) (ThinSlice.mk (Arena 1 4096)) = Some true.
Proof.
  intros m.
  assert (Ha : ThinSlice.as_slice 64 layout_i32 m (ThinSlice.mk (Arena 0 4096)) = Some [1; 2])
    by reflexivity.
  assert (Hb : ThinSlice.as_slice 64 layout_i32 m (ThinSlice.mk (Arena 1 4096)) = Some [1; 2])
    by reflexivity.
  destruct (@eq_iff_cmp_equal 64 Z _ _ layout_i32 m _ _ _ _ Ha Hb) as [H1 H2].
  assert (Hc : ThinSlice.cmp 64 layout_i32 m (ThinSlice.mk (Arena 0 4096)) (ThinSlice.mk (Arena 1 4096))
               = Some Equal) by exact (proj2 (H2 Z_Ord_equal) eq_refl).
  split; [exact Ha|]. split; [exact Hb|]. split; [exact Z_eq_cmp|]. split; [exact Z_Ord_equal|].
  split; [exact Hc|]. exact (proj2 (H1 Z_eq_cmp) Hc).
Defined.

Lemma cmp_proper_prefix_less_witness :
  let m := fun a : addr =>
    if addr_eqb a (Arena 0 4096) then Some (mkAlloc (Some 2) (fun i => nth_error [1; 2] (Z.to_nat i)))
    else if addr_eqb a (Arena 0 8192) then Some (mkAlloc (Some 3) (fun i => nth_error [1; 2; 3] (Z.to_nat i)))
    else None in
  (forall x : Z, Ord_cmp x x = Equal) /\
  ThinSlice.as_slice 64 layout_i32 m (ThinSlice.mk (Arena 0 4096)) = Some [1; 2] /\
  ThinSlice.as_slice 64 layout_i32 m (ThinSlice.mk (Arena 0 8192)) = Some ([1; 2] ++ [3]) /\
  ThinSlice.cmp 64 layout_i32 m (ThinSlice.mk (Arena 0 4096)) (ThinSlice.mk (Arena 0 8192)) = Some Less.
Proof.
  intros m.
  assert (Ha : ThinSlice.as_slice 64 layout_i32 m (ThinSlice.mk (Arena 0 4096)) = Some [1; 2])
    by reflexivity.
  assert (Hb : ThinSlice.as_slice 64 layout_i32 m (ThinSlice.mk (Arena 0 8192)) = Some ([1; 2] ++ [3]))
    by reflexivity.
  split; [exact Z_Ord_refl|]. split; [exact Ha|]. split; [exact Hb|].
  exact (@cmp_proper_prefix_less 64 Z _ layout_i32 m _ _ [1; 2] 3 [] Z_Ord_refl Ha Hb).
Defined.

Lemma cmp_less_transitive_witness :
  let m := fun a : addr =>
    if addr_eqb a (Arena 0 4096) then Some (mkAlloc (Some 2) (fun i => nth_error [1; 2] (Z.to_nat i)))
    else if addr_eqb a (Arena 0 8192) then Some (mkAlloc (Some 3) (fun i => nth_error [1; 2; 3] (Z.to_nat i)))
    else if addr_eqb a (Arena 1 4096) then Some (mkAlloc (Some 2) (fun i => nth_error [1; 3] (Z.to_nat i)))
    else None in
  ThinSlice.cmp 64 layout_i32 m (ThinSlice.mk (Arena 0 4096)) (ThinSlice.mk (Arena 0 8192)) = Some Less /\
  ThinSlice.cmp 64 layout_i32 m (ThinSlice.mk (Arena 0 8192)) (ThinSlice.mk (Arena 1 4096)) = Some Less /\
  ThinSlice.cmp 64 layout_i32 m (ThinSlice.mk (Arena 0 4096)) (ThinSlice.mk (Arena 1 4096)) = Some Less.
Proof.
  intros m.
  assert (H1 : ThinSlice.cmp 64 layout_i32 m (ThinSlice.mk (Arena 0 4096)) (ThinSlice.mk (Arena 0 8192))
               = Some Less) by reflexivity.
  assert (H2 : ThinSlice.cmp 64 layout_i32 m (ThinSlice.mk (Arena 0 8192)) (ThinSlice.mk (Arena 1 4096))
               = Some Less) by reflexivity.
  split; [exact H1|]. split; [exact H2|].
  exact (@cmp_less_transitive 64 Z _ layout_i32 m _ _ _ (fun x y Hxy => proj1 (Z_Ord_equal x y) Hxy) Z_Ord_trans H1 H2).
Defined.

Lemma partial_cmp_is_some_cmp_witness :
  let m := fun a : addr =>
    if addr_eqb a (Arena 0 4096) then Some (mkAlloc (Some 2) (fun i => nth_error [1; 2] (Z.to_nat i)))
    else if addr_eqb a (Arena 1 4096) then Some (mkAlloc (Some 2) (fun i => nth_error [1; 3] (Z.to_nat i)))
    else None in
  (forall x y : Z, PartialOrd_partial_cmp x y = Some (Ord_cmp x y)) /\
  ThinSlice.partial_cmp 64 layout_i32 m (ThinSlice.mk (Arena 0 4096)) (ThinSlice.mk (Arena 1 4096))
    = Some (Some Less).
Proof.
  intros m. split; [reflexivity|].
  rewrite (@partial_cmp_is_some_cmp 64 Z Z_Ord Z_PartialOrd layout_i32 m _ _ (fun x y => eq_refl)).
  reflexivity.
Defined.
